(** * Chess Game Simulator: the move policy and the session state machine

    A shallow embedding of the [ChessGame] React component: the move
    policy [generateAIMove], the timer-driven effect that applies a move,
    and the four commands [startGame], [pauseGame], [resetGame] and
    [handleSpeedChange].

    The rules of chess are not part of the component: it delegates them to
    the chess.js library.  The library is therefore an interface here
    ([ChessJs]), and every theorem holds for any implementation of it. *)

From Stdlib Require Import String Ascii List Bool Arith ZArith QArith Qround Lia.
Import ListNotations.
Local Open Scope string_scope.

(** ** JavaScript numbers *)

(** The numbers that [Math.random] returns and their products with an
    array length.  A double that is not negative is [m * 2^e] for a
    significand [m] below [2^53]; the exponent is not bounded here, which
    only adds values smaller than any the engine can return. *)
Module Double.

Record t : Type := {
  significand : Z;
  exponent : Z
}.

Definition value (d : t) : Q :=
  inject_Z (significand d) * Qpower (2 # 1) (exponent d).

(** The integer part of [p / q * 2^k], for [p] and [q] positive. *)
Definition scaledFloor (p q k : Z) : Z :=
  if (0 <=? k)%Z then (p * 2 ^ k / q)%Z else (p / (q * 2 ^ (- k)))%Z.

(** The double next below a rational that is not negative, or the
    rational itself when it is a double: its first 53 binary digits.
    Every double from 0 to 1 is [ofQ r] for some [r] from 0 to 1, itself
    for one. *)
Definition ofQ (r : Q) : t :=
  let p := Qnum r in
  let q := Z.pos (Qden r) in
  if (p <=? 0)%Z then {| significand := 0; exponent := 0 |}
  else
    let e := (Z.log2 p - Z.log2 q - 53)%Z in
    let m := scaledFloor p q (- e) in
    if (m <? 2 ^ 53)%Z then {| significand := m; exponent := e |}
    else {| significand := (m / 2)%Z; exponent := (e + 1)%Z |}.

(** [d * n] for an integer [n] that is not negative, as the machine
    computes it: the exact product rounded to 53 binary digits, to the
    nearest and, half way, to the even significand.  (A significand
    rounded up to [2^53] is left as it is: the value is the same.) *)
Definition times (d : t) (n : Z) : t :=
  let a := (significand d * n)%Z in
  let s := (Z.log2 a - 52)%Z in
  if (s <=? 0)%Z then {| significand := a; exponent := exponent d |}
  else
    let q := (a / 2 ^ s)%Z in
    let rest := (a mod 2 ^ s)%Z in
    let half := (2 ^ (s - 1))%Z in
    let up := (half <? rest)%Z || ((rest =? half)%Z && Z.odd q) in
    {| significand := if up then (q + 1)%Z else q;
       exponent := (exponent d + s)%Z |}.

(** [Math.floor(d)] *)
Definition floor (d : t) : Z :=
  if (0 <=? exponent d)%Z then (significand d * 2 ^ exponent d)%Z
  else (significand d / 2 ^ (- exponent d))%Z.

(** A double below 1: zero, or a significand of 53 digits with an
    exponent that keeps the value under 1. *)
Definition belowOne (d : t) : Prop :=
  significand d = 0%Z \/
  ((2 ^ 52 <= significand d < 2 ^ 53)%Z /\
   (exponent d < 0)%Z /\
   (significand d < 2 ^ (- exponent d))%Z).

End Double.

(** ** JavaScript primitives *)

Module Js.

(** [hay.includes(needle)]: [needle] occurs in [hay] as a contiguous
    substring. *)
Fixpoint includes (hay needle : string) : bool :=
  match hay with
  | EmptyString => String.prefix needle EmptyString
  | String _ rest => String.prefix needle hay || includes rest needle
  end.

(** [arr[i]] for a number [i] that is an integer: the element, or
    [undefined] (here [None]) when [i] is not a position of [arr]. *)
Definition index {A : Type} (arr : list A) (i : Z) : option A :=
  if (i <? 0)%Z then None else nth_error arr (Z.to_nat i).

(** [Math.floor(r * n)] for a draw [r] and an array length [n]: the
    product is the rounded product of doubles. *)
Definition floorTimes (r : Double.t) (n : nat) : Z :=
  Double.floor (Double.times r (Z.of_nat n)).

(** [r > 0.7].  The double written [0.7] lies below 7/10 and the next
    double lies above it, so for a double [r] the test agrees with the
    comparison against the rational 7/10. *)
Definition above07 (r : Double.t) : bool :=
  negb (Qle_bool (Double.value r) (7 # 10)).

(** A call completes normally with a value, or abruptly by throwing. *)
Inductive completion (A : Type) : Type :=
| Normal (a : A)
| Throw (e : string).
Arguments Normal {A} a.
Arguments Throw {A} e.

End Js.
Import Js.

(** ** The chess.js interface *)

(** The colours of chess.js, ['w'] and ['b']. *)
Inductive Color : Type := w | b.

(** The part of the object returned by [Chess.move] that the component
    reads: the mover's colour and the kind of the captured piece, if any. *)
Record MoveResult : Type := {
  color : Color;
  captured : option string
}.

(** What the component uses of a [Chess] instance.  [move] mutates the
    instance in the source; here it returns the instance after the move.
    An illegal move is reported by [null] in the early 1.0 releases of the
    library and by an exception in the later ones: both are possible
    results of [move]. *)
Class ChessJs : Type := {
  Chess : Type;
  newChess : Chess;                      (* new Chess() *)
  load : string -> Chess;                (* new Chess(fen) *)
  fen : Chess -> string;
  moves : Chess -> list string;          (* legal moves, in SAN *)
  move : Chess -> string -> completion (option (Chess * MoveResult));
  turn : Chess -> Color;
  isGameOver : Chess -> bool
}.

(** ** Computations that draw random numbers *)

(** The state threaded through a computation is the number of calls of
    [Math.random] made so far; the outcome of the [k]-th call is given by
    [random k]. *)
Definition JS (A : Type) : Type := nat -> completion A * nat.

Definition ret {A : Type} (a : A) : JS A := fun k => (Normal a, k).

Definition bind {A B : Type} (m : JS A) (f : A -> JS B) : JS B :=
  fun k =>
    match m k with
    | (Normal a, k') => f a k'
    | (Throw e, k') => (Throw e, k')
    end.

Definition lift {A : Type} (c : completion A) : JS A := fun k => (c, k).

Notation "x <- m ;; f" := (bind m (fun x => f))
  (at level 61, m at next level, right associativity).

(** ** The component's state *)

Inductive Player : Type := White | Black.

Record Captured : Type := {
  white : list string;
  black : list string
}.

Section Component.

Context {lib : ChessJs}.

(** The outcomes of the successive calls of [Math.random]: the call
    [k] returns the double of [random k]. *)
Variable random : nat -> Q.

Definition mathRandom : JS Double.t :=
  fun k => (Normal (Double.ofQ (random k)), S k).

Record GameState : Type := {
  game : Chess;
  gameHistory : list string;
  isGameActive : bool;
  currentPlayer : Player;
  gameSpeed : Z;
  capturedPieces : Captured
}.

(** *** The move policy *)

Definition isCaptureMove (mv : string) : bool := includes mv "x".

Definition isCenterMove (mv : string) : bool :=
  includes mv "e4" || includes mv "e5" ||
  includes mv "d4" || includes mv "d5".

(** [arr[Math.floor(Math.random() * arr.length)]] *)
Definition pick (arr : list string) : JS (option string) :=
  r <- mathRandom ;;
  ret (index arr (floorTimes r (length arr))).

(** The result is [string | null]; [None] stands for [null] and for the
    [undefined] of an index outside the array, which the caller does not
    tell apart. *)
Definition generateAIMove (g : Chess) : JS (option string) :=
  let possibleMoves := moves g in
  if (length possibleMoves =? 0)%nat then ret None
  else
    let captureMoves := filter isCaptureMove possibleMoves in
    let centerMoves := filter isCenterMove possibleMoves in
    if (0 <? length captureMoves)%nat then pick captureMoves
    else
      preferCenter <-
        (if (0 <? length centerMoves)%nat
         then r <- mathRandom ;; ret (above07 r)
         else ret false) ;;
      if preferCenter then pick centerMoves else pick possibleMoves.

(** *** The effect that plays a move

    The state setter is called with an updater; [Played] holds the three
    values the updater closes over. *)
Record Played : Type := {
  newGame : Chess;
  playedMove : string;
  newCapturedPieces : Captured
}.

(** [prev => ({ ...prev, game: newGame, gameHistory: [...prev.gameHistory,
    move], currentPlayer: ..., capturedPieces: newCapturedPieces })] *)
Definition applyPlayed (p : Played) (prev : GameState) : GameState :=
  {| game := newGame p;
     gameHistory := gameHistory prev ++ [playedMove p];
     isGameActive := isGameActive prev;
     currentPlayer := match turn (newGame p) with w => White | b => Black end;
     gameSpeed := gameSpeed prev;
     capturedPieces := newCapturedPieces p |}.

(** [newCapturedPieces[capturingColor].push(capturedPiece)].  In the source
    the array is the one of the state the timer closed over; that state is
    replaced by the update that follows, so the lists are values here. *)
Definition pushCaptured (c : Captured) (by_ : Color) (piece : string)
  : Captured :=
  match by_ with
  | w => {| white := white c ++ [piece]; black := black c |}
  | b => {| white := white c; black := black c ++ [piece] |}
  end.

(** [if (move)]: [null], [undefined] and the empty string are falsy. *)
Definition truthy (mv : option string) : option string :=
  match mv with
  | Some s => if String.eqb s "" then None else Some s
  | None => None
  end.

(** The body of the [setTimeout] callback, for the state [closure] that the
    effect closed over.  [Some p]: the setter is called with the updater
    [applyPlayed p]; [None]: the setter is not called. *)
Definition timerCallback (closure : GameState) : JS (option Played) :=
  let fresh := load (fen (game closure)) in
  mv <- generateAIMove fresh ;;
  match truthy mv with
  | None => ret None
  | Some mv =>
      moveResult <- lift (move fresh mv) ;;
      match moveResult with
      | None => ret None
      | Some (moved, result) =>
          let newCaptured :=
            match captured result with
            | Some piece => pushCaptured (capturedPieces closure) (color result) piece
            | None => capturedPieces closure
            end in
          ret (Some {| newGame := moved;
                       playedMove := mv;
                       newCapturedPieces := newCaptured |})
      end
  end.

(** *** The commands *)

Definition initialState : GameState :=
  {| game := newChess;
     gameHistory := [];
     isGameActive := false;
     currentPlayer := White;
     gameSpeed := 2000;
     capturedPieces := {| white := []; black := [] |} |}.

Definition startGame (prev : GameState) : GameState :=
  {| game := game prev;
     gameHistory := gameHistory prev;
     isGameActive := true;
     currentPlayer := currentPlayer prev;
     gameSpeed := gameSpeed prev;
     capturedPieces := capturedPieces prev |}.

Definition pauseGame (prev : GameState) : GameState :=
  {| game := game prev;
     gameHistory := gameHistory prev;
     isGameActive := false;
     currentPlayer := currentPlayer prev;
     gameSpeed := gameSpeed prev;
     capturedPieces := capturedPieces prev |}.

(** [resetGame] passes the setter a value, not an updater: the previous
    state is not read. *)
Definition resetGame (prev : GameState) : GameState :=
  {| game := newChess;
     gameHistory := [];
     isGameActive := false;
     currentPlayer := White;
     gameSpeed := 2000;
     capturedPieces := {| white := []; black := [] |} |}.

Definition handleSpeedChange (newSpeed : Z) (prev : GameState) : GameState :=
  {| game := game prev;
     gameHistory := gameHistory prev;
     isGameActive := isGameActive prev;
     currentPlayer := currentPlayer prev;
     gameSpeed := newSpeed;
     capturedPieces := capturedPieces prev |}.

(** *** The session: the state and the pending timer

    A pending timer holds the time left before it fires and the state its
    callback closed over. *)
Record Timer : Type := {
  remaining : Z;
  closure : GameState
}.

Record Session : Type := {
  gameState : GameState;
  timer : option Timer
}.

(** The body of the effect: nothing is scheduled unless the game is active
    and not over. *)
Definition effect (gs : GameState) : option Timer :=
  if negb (isGameActive gs) || isGameOver (game gs) then None
  else Some {| remaining := gameSpeed gs; closure := gs |}.

(** The dependencies of the effect that are compared by value: the FEN of
    the game, the active flag and the speed.  [generateAIMove] never
    changes; [capturedPieces] is compared by identity, see [setGameState]. *)
Definition sameDeps (old new : GameState) : bool :=
  String.eqb (fen (game old)) (fen (game new)) &&
  Bool.eqb (isGameActive old) (isGameActive new) &&
  Z.eqb (gameSpeed old) (gameSpeed new).

(** A state update followed by the render it causes.  [keepsCaptured] tells
    whether the new state holds the same [capturedPieces] object as the old
    one (the updates written with [...prev] do).  When a dependency
    changed, the cleanup clears the pending timer and the effect runs
    again; otherwise the pending timer stays. *)
Definition setGameState (keepsCaptured : bool) (f : GameState -> GameState)
  (s : Session) : Session :=
  let gs := f (gameState s) in
  {| gameState := gs;
     timer := if keepsCaptured && sameDeps (gameState s) gs
              then timer s else effect gs |}.

(** The session when the component is mounted. *)
Definition mount : Session :=
  {| gameState := initialState; timer := effect initialState |}.

(** [ms] milliseconds pass.  A pending timer with more time left keeps
    waiting; otherwise it fires: its callback runs and, when it calls the
    setter, the state is updated and rendered.  A callback that ends
    without calling the setter, or that throws, leaves the state as it is
    and no timer pending. *)
Definition elapse (ms : Z) (s : Session) (k : nat) : Session * nat :=
  match timer s with
  | None => (s, k)
  | Some t =>
      if (ms <? remaining t)%Z
      then ({| gameState := gameState s;
               timer := Some {| remaining := remaining t - ms;
                                closure := closure t |} |}, k)
      else
        let fired := {| gameState := gameState s; timer := None |} in
        match timerCallback (closure t) k with
        | (Normal (Some p), k') => (setGameState false (applyPlayed p) fired, k')
        | (_, k') => (fired, k')
        end
  end.

Inductive Event : Type :=
| Start
| Pause
| Reset
| SpeedChange (newSpeed : Z)
| Elapse (ms : Z).

Definition step (e : Event) (s : Session) (k : nat) : Session * nat :=
  match e with
  | Start => (setGameState true startGame s, k)
  | Pause => (setGameState true pauseGame s, k)
  | Reset => (setGameState false resetGame s, k)
  | SpeedChange v => (setGameState true (handleSpeedChange v) s, k)
  | Elapse ms => elapse ms s k
  end.

Fixpoint run (es : list Event) (s : Session) (k : nat) : Session * nat :=
  match es with
  | [] => (s, k)
  | e :: rest => let (s', k') := step e s k in run rest s' k'
  end.

(** A pending timer closed over the current state, and was scheduled for
    an active game that is not over. *)
Definition wellFormed (s : Session) : Prop :=
  match timer s with
  | None => True
  | Some t =>
      closure t = gameState s /\
      isGameActive (gameState s) = true /\
      isGameOver (game (gameState s)) = false
  end.

End Component.

Arguments GameState {lib}.
Arguments Session {lib}.
Arguments Timer {lib}.
Arguments Played {lib}.

(** ** The destination square of a move, as the specification reads it

    The specification speaks of the square a move goes to, where the
    source tests the text of the move.  In SAN the destination is the
    last square written: the two characters that remain at the end once
    the check or mate mark and the promotion suffix are removed.
    Castling names no square. *)
Module San.

Definition isFile (c : ascii) : bool :=
  (97 <=? nat_of_ascii c)%nat && (nat_of_ascii c <=? 104)%nat.

Definition isRank (c : ascii) : bool :=
  (49 <=? nat_of_ascii c)%nat && (nat_of_ascii c <=? 56)%nat.

Definition isMark (c : ascii) : bool :=
  Ascii.eqb c "+" || Ascii.eqb c "#".

(** On the reversed text: drop the check or mate mark. *)
Definition dropMark (r : list ascii) : list ascii :=
  match r with
  | c :: rest => if isMark c then rest else r
  | [] => []
  end.

(** On the reversed text: drop the promotion suffix [=Q]. *)
Definition dropPromotion (r : list ascii) : list ascii :=
  match r with
  | _ :: c :: rest => if Ascii.eqb c "=" then rest else r
  | _ => r
  end.

Definition destination (mv : string) : option string :=
  match dropPromotion (dropMark (rev (list_ascii_of_string mv))) with
  | rank :: file :: _ =>
      if isFile file && isRank rank
      then Some (String file (String rank EmptyString))
      else None
  | _ => None
  end.

Definition isCenterSquare (sq : string) : bool :=
  String.eqb sq "d4" || String.eqb sq "d5" ||
  String.eqb sq "e4" || String.eqb sq "e5".

(** A move whose destination is one of the four center squares. *)
Definition goesToCenter (mv : string) : bool :=
  match destination mv with
  | Some sq => isCenterSquare sq
  | None => false
  end.

End San.

(** ** An excerpt of chess.js

    A finite table of positions with their legal moves, in the order in
    which the library generates them, and the position each move leads to.
    A game is identified with its FEN, which is all the effect keeps of a
    game from one move to the next.  The excerpt serves the examples; the
    theorems do not depend on it. *)
Module Excerpt.

Definition startFen : string :=
  "rnbqkbnr/pppppppp/8/8/8/8/PPPPPPPP/RNBQKBNR w KQkq - 0 1".

(** White: king h1, pawn e4.  Black: king h8, pawn d5. *)
Definition pawnEndingFen : string := "7k/8/8/3p4/4P3/8/8/7K w - - 0 1".

(** White: king h1, knights a4, e4 and e2.  Black: king h8.  The three
    knights all reach c3, so the move of the e4 knight is written with
    its full origin. *)
Definition threeKnightsFen : string := "7k/8/8/8/N3N3/8/4N3/7K w - - 0 1".

(** The position after 1.f3 e5 2.g4 Qh4: White is mated. *)
Definition foolsMateFen : string :=
  "rnb1kbnr/pppp1ppp/8/4p3/6Pq/5P2/PPPPP2P/RNBQKBNR w KQkq - 1 3".

Definition startMoves : list (string * (string * MoveResult)) :=
  [("a3", ("rnbqkbnr/pppppppp/8/8/8/P7/1PPPPPPP/RNBQKBNR b KQkq - 0 1",
     {| color := w; captured := None |}));
   ("a4", ("rnbqkbnr/pppppppp/8/8/P7/8/1PPPPPPP/RNBQKBNR b KQkq - 0 1",
     {| color := w; captured := None |}));
   ("b3", ("rnbqkbnr/pppppppp/8/8/8/1P6/P1PPPPPP/RNBQKBNR b KQkq - 0 1",
     {| color := w; captured := None |}));
   ("b4", ("rnbqkbnr/pppppppp/8/8/1P6/8/P1PPPPPP/RNBQKBNR b KQkq - 0 1",
     {| color := w; captured := None |}));
   ("c3", ("rnbqkbnr/pppppppp/8/8/8/2P5/PP1PPPPP/RNBQKBNR b KQkq - 0 1",
     {| color := w; captured := None |}));
   ("c4", ("rnbqkbnr/pppppppp/8/8/2P5/8/PP1PPPPP/RNBQKBNR b KQkq - 0 1",
     {| color := w; captured := None |}));
   ("d3", ("rnbqkbnr/pppppppp/8/8/8/3P4/PPP1PPPP/RNBQKBNR b KQkq - 0 1",
     {| color := w; captured := None |}));
   ("d4", ("rnbqkbnr/pppppppp/8/8/3P4/8/PPP1PPPP/RNBQKBNR b KQkq - 0 1",
     {| color := w; captured := None |}));
   ("e3", ("rnbqkbnr/pppppppp/8/8/8/4P3/PPPP1PPP/RNBQKBNR b KQkq - 0 1",
     {| color := w; captured := None |}));
   ("e4", ("rnbqkbnr/pppppppp/8/8/4P3/8/PPPP1PPP/RNBQKBNR b KQkq - 0 1",
     {| color := w; captured := None |}));
   ("f3", ("rnbqkbnr/pppppppp/8/8/8/5P2/PPPPP1PP/RNBQKBNR b KQkq - 0 1",
     {| color := w; captured := None |}));
   ("f4", ("rnbqkbnr/pppppppp/8/8/5P2/8/PPPPP1PP/RNBQKBNR b KQkq - 0 1",
     {| color := w; captured := None |}));
   ("g3", ("rnbqkbnr/pppppppp/8/8/8/6P1/PPPPPP1P/RNBQKBNR b KQkq - 0 1",
     {| color := w; captured := None |}));
   ("g4", ("rnbqkbnr/pppppppp/8/8/6P1/8/PPPPPP1P/RNBQKBNR b KQkq - 0 1",
     {| color := w; captured := None |}));
   ("h3", ("rnbqkbnr/pppppppp/8/8/8/7P/PPPPPPP1/RNBQKBNR b KQkq - 0 1",
     {| color := w; captured := None |}));
   ("h4", ("rnbqkbnr/pppppppp/8/8/7P/8/PPPPPPP1/RNBQKBNR b KQkq - 0 1",
     {| color := w; captured := None |}));
   ("Na3", ("rnbqkbnr/pppppppp/8/8/8/N7/PPPPPPPP/R1BQKBNR b KQkq - 1 1",
     {| color := w; captured := None |}));
   ("Nc3", ("rnbqkbnr/pppppppp/8/8/8/2N5/PPPPPPPP/R1BQKBNR b KQkq - 1 1",
     {| color := w; captured := None |}));
   ("Nf3", ("rnbqkbnr/pppppppp/8/8/8/5N2/PPPPPPPP/RNBQKB1R b KQkq - 1 1",
     {| color := w; captured := None |}));
   ("Nh3", ("rnbqkbnr/pppppppp/8/8/8/7N/PPPPPPPP/RNBQKB1R b KQkq - 1 1",
     {| color := w; captured := None |}))].

Definition pawnEndingMoves : list (string * (string * MoveResult)) :=
  [("e5", ("7k/8/8/3pP3/8/8/8/7K b - - 0 1",
     {| color := w; captured := None |}));
   ("exd5", ("7k/8/8/3P4/8/8/8/7K b - - 0 1",
     {| color := w; captured := Some "p" |}));
   ("Kg2", ("7k/8/8/3p4/4P3/8/6K1/8 b - - 1 1",
     {| color := w; captured := None |}));
   ("Kh2", ("7k/8/8/3p4/4P3/8/7K/8 b - - 1 1",
     {| color := w; captured := None |}));
   ("Kg1", ("7k/8/8/3p4/4P3/8/8/6K1 b - - 1 1",
     {| color := w; captured := None |}))].

Definition threeKnightsMoves : list (string * (string * MoveResult)) :=
  [("Nb6", ("7k/8/1N6/8/4N3/8/4N3/7K b - - 1 1",
     {| color := w; captured := None |}));
   ("Nac5", ("7k/8/8/2N5/4N3/8/4N3/7K b - - 1 1",
     {| color := w; captured := None |}));
   ("Nac3", ("7k/8/8/8/4N3/2N5/4N3/7K b - - 1 1",
     {| color := w; captured := None |}));
   ("Nb2", ("7k/8/8/8/4N3/8/1N2N3/7K b - - 1 1",
     {| color := w; captured := None |}));
   ("Nec5", ("7k/8/8/2N5/N7/8/4N3/7K b - - 1 1",
     {| color := w; captured := None |}));
   ("Nd6", ("7k/8/3N4/8/N7/8/4N3/7K b - - 1 1",
     {| color := w; captured := None |}));
   ("Nf6", ("7k/8/5N2/8/N7/8/4N3/7K b - - 1 1",
     {| color := w; captured := None |}));
   ("Ng5", ("7k/8/8/6N1/N7/8/4N3/7K b - - 1 1",
     {| color := w; captured := None |}));
   ("N4g3", ("7k/8/8/8/N7/6N1/4N3/7K b - - 1 1",
     {| color := w; captured := None |}));
   ("Nf2", ("7k/8/8/8/N7/8/4NN2/7K b - - 1 1",
     {| color := w; captured := None |}));
   ("Nd2", ("7k/8/8/8/N7/8/3NN3/7K b - - 1 1",
     {| color := w; captured := None |}));
   ("Ne4c3", ("7k/8/8/8/N7/2N5/4N3/7K b - - 1 1",
     {| color := w; captured := None |}));
   ("N2c3", ("7k/8/8/8/N3N3/2N5/8/7K b - - 1 1",
     {| color := w; captured := None |}));
   ("Nd4", ("7k/8/8/8/N2NN3/8/8/7K b - - 1 1",
     {| color := w; captured := None |}));
   ("Nf4", ("7k/8/8/8/N3NN2/8/8/7K b - - 1 1",
     {| color := w; captured := None |}));
   ("N2g3", ("7k/8/8/8/N3N3/6N1/8/7K b - - 1 1",
     {| color := w; captured := None |}));
   ("Ng1", ("7k/8/8/8/N3N3/8/8/6NK b - - 1 1",
     {| color := w; captured := None |}));
   ("Nc1", ("7k/8/8/8/N3N3/8/8/2N4K b - - 1 1",
     {| color := w; captured := None |}));
   ("Kg2", ("7k/8/8/8/N3N3/8/4N1K1/8 b - - 1 1",
     {| color := w; captured := None |}));
   ("Kh2", ("7k/8/8/8/N3N3/8/4N2K/8 b - - 1 1",
     {| color := w; captured := None |}));
   ("Kg1", ("7k/8/8/8/N3N3/8/4N3/6K1 b - - 1 1",
     {| color := w; captured := None |}))].


Definition table (position : string) : list (string * (string * MoveResult)) :=
  if String.eqb position startFen then startMoves
  else if String.eqb position pawnEndingFen then pawnEndingMoves
  else if String.eqb position threeKnightsFen then threeKnightsMoves
  else [].

Fixpoint lookup {A : Type} (key : string) (l : list (string * A)) : option A :=
  match l with
  | [] => None
  | (k, v) :: rest => if String.eqb k key then Some v else lookup key rest
  end.

#[export] Instance chess : ChessJs := {|
  Chess := string;
  newChess := startFen;
  load := fun position => position;
  fen := fun g => g;
  moves := fun g => map fst (table g);
  move := fun g san => Normal (lookup san (table g));
  turn := fun g => if includes g " w " then w else b;
  isGameOver := fun g => String.eqb g foolsMateFen
|}.

(** A position of the excerpt as a game of the library. *)
Definition position (f : string) : @Chess chess := f.

(** Draws for the examples: the first call of [Math.random] returns
    [first], every later call [later]. *)
Definition draws (first later : Q) (k : nat) : Q :=
  match k with
  | O => first
  | S _ => later
  end.

End Excerpt.

(** ** What the page shows *)

(** [PIECE_VALUES[key]] for the six keys of the table; [None] for any
    other key, whose lookup does not give a value of the table. *)
Definition PIECE_VALUES (key : string) : option Z :=
  if String.eqb key "p" then Some 1%Z
  else if String.eqb key "n" then Some 3%Z
  else if String.eqb key "b" then Some 3%Z
  else if String.eqb key "r" then Some 5%Z
  else if String.eqb key "q" then Some 9%Z
  else if String.eqb key "k" then Some 0%Z
  else None.

(** [pieces.reduce((sum, piece) => sum + PIECE_VALUES[piece], 0)].  The
    result is [Some] of the sum as long as every key met is in the table;
    after a key that is not, the accumulator is no sum of values any more
    and stays so ([None]). *)
Definition sumValues (pieces : list string) : option Z :=
  fold_left
    (fun sum piece =>
       match sum, PIECE_VALUES piece with
       | Some a, Some v => Some (a + v)%Z
       | _, _ => None
       end)
    pieces (Some 0%Z).

(** The label of the row [index] of the move list: the number
    [Math.floor(index / 2) + 1] and the mark [index % 2 === 0 ? '' : '..']. *)
Definition moveNumber (index : nat) : nat := (index / 2 + 1)%nat.

Definition moveMark (index : nat) : string :=
  if (index mod 2 =? 0)%nat then "" else "..".

(** [arr.map((x, i) => f(x, i))] *)
Fixpoint mapFrom {A B : Type} (i : nat) (f : A -> nat -> B) (arr : list A)
  : list B :=
  match arr with
  | [] => []
  | x :: rest => f x i :: mapFrom (S i) f rest
  end.

Definition mapi {A B : Type} (f : A -> nat -> B) (arr : list A) : list B :=
  mapFrom 0%nat f arr.

(** The board component.  A cell is what [ChessBoard] computes for a
    square apart from the glyph of the piece that stands on it: the name
    of the square, its shade, and whether the rank and the file are
    written in it. *)
Record Cell : Type := {
  square : string;
  isLight : bool;
  showsRank : bool;
  showsFile : bool
}.

Definition files : list string := ["a"; "b"; "c"; "d"; "e"; "f"; "g"; "h"].

Definition ranks : list string := ["8"; "7"; "6"; "5"; "4"; "3"; "2"; "1"].

Definition displayRanks (boardOrientation : Player) : list string :=
  match boardOrientation with White => ranks | Black => rev ranks end.

Definition displayFiles (boardOrientation : Player) : list string :=
  match boardOrientation with White => files | Black => rev files end.

(** The rows of the grid, from the top, each from the left. *)
Definition boardCells (boardOrientation : Player) : list (list Cell) :=
  mapi
    (fun rank rankIndex =>
       mapi
         (fun file fileIndex =>
            {| square := (file ++ rank)%string;
               isLight := ((rankIndex + fileIndex) mod 2 =? 0)%nat;
               showsRank := (fileIndex =? 0)%nat;
               showsFile :=
                 (rankIndex =? length (displayRanks boardOrientation) - 1)%nat
            |})
         (displayFiles boardOrientation))
    (displayRanks boardOrientation).

(** [prev => prev === 'white' ? 'black' : 'white'] *)
Definition flipBoard (prev : Player) : Player :=
  match prev with White => Black | Black => White end.

Definition playerName (p : Player) : string :=
  match p with White => "White" | Black => "Black" end.

(** The shade of a square by the rule of the chessboard, read off its
    name: a1 is dark, and the shade alternates along files and ranks. *)
Definition lightByName (sq : string) : bool :=
  match sq with
  | String file (String rank EmptyString) =>
      Nat.odd (nat_of_ascii file + nat_of_ascii rank)
  | _ => false
  end.

Section Display.

Context {lib : ChessJs}.

(** The three further queries of the library that the status line uses. *)
Variables isCheckmate isDraw isCheck : Chess -> bool.

Definition calculateMaterialAdvantage (gs : GameState) : option Z :=
  match sumValues (white (capturedPieces gs)),
        sumValues (black (capturedPieces gs)) with
  | Some whiteAdvantage, Some blackAdvantage =>
      Some (whiteAdvantage - blackAdvantage)%Z
  | _, _ => None
  end.

Definition getGameStatus (gs : GameState) : string :=
  if isCheckmate (game gs) then
    ("Checkmate! " ++
     match turn (game gs) with w => "Black" | b => "White" end ++
     " wins!")%string
  else if isDraw (game gs) then "Game ended in a draw!"
  else if isCheck (game gs) then
    (playerName (currentPlayer gs) ++ " is in check!")%string
  else (playerName (currentPlayer gs) ++ " to move")%string.

End Display.

Section Captures.

Context {lib : ChessJs}.

(** A move that captures a piece, as the library tells it: the move is
    accepted and the result reports a captured piece. *)
Definition capturesPiece (g : Chess) (mv : string) : Prop :=
  exists moved result piece,
    move g mv = Normal (Some (moved, result)) /\
    captured result = Some piece.

(** The notation of the library: among the moves it lists, the text of a
    move contains an x exactly when the move captures a piece. *)
Definition marksCaptures : Prop :=
  forall g mv,
    In mv (moves g) -> (includes mv "x" = true <-> capturesPiece g mv).

End Captures.

Section Progress.

Context {lib : ChessJs}.

(** How far a session is ahead of another: moves were added to the
    history and pieces to the capture lists, at most one piece a move. *)
Definition extends (s s' : Session) : Prop :=
  exists moved byWhite byBlack,
    gameHistory (gameState s') =
      (gameHistory (gameState s) ++ moved)%list /\
    white (capturedPieces (gameState s')) =
      (white (capturedPieces (gameState s)) ++ byWhite)%list /\
    black (capturedPieces (gameState s')) =
      (black (capturedPieces (gameState s)) ++ byBlack)%list /\
    (length byWhite + length byBlack <= length moved)%nat.

(** The player shown as to move is the side the library says is to
    move. *)
Definition showsSideToMove (s : Session) : Prop :=
  currentPlayer (gameState s) =
  match turn (game (gameState s)) with w => White | b => Black end.

(** The pieces captured are no more than the moves played. *)
Definition capturesWithinMoves (s : Session) : Prop :=
  (length (white (capturedPieces (gameState s))) +
   length (black (capturedPieces (gameState s))) <=
   length (gameHistory (gameState s)))%nat.

(** The material of a session: both sums are numbers, neither is
    negative, and together they are at most 9 a move played. *)
Definition materialWithinMoves (s : Session) : Prop :=
  exists x y,
    sumValues (white (capturedPieces (gameState s))) = Some x /\
    sumValues (black (capturedPieces (gameState s))) = Some y /\
    (0 <= x)%Z /\ (0 <= y)%Z /\
    (x + y <= Z.of_nat (length (gameHistory (gameState s))) * 9)%Z.

End Progress.

(** ** The excerpt, closed at its border

    The same table, where a position without tabulated moves counts as a
    finished game: every game that is not over then has a move, and every
    listed move is accepted. *)
Module Bordered.

#[export] Instance chess : ChessJs := {|
  Chess := string;
  newChess := Excerpt.startFen;
  load := fun position => position;
  fen := fun g => g;
  moves := fun g => map fst (Excerpt.table g);
  move := fun g san => Normal (Excerpt.lookup san (Excerpt.table g));
  turn := fun g => if includes g " w " then w else b;
  isGameOver := fun g => match Excerpt.table g with [] => true | _ => false end
|}.

End Bordered.

(** ** A position with two captures

    The excerpt with one more position: White has king h1 and pawn e4,
    Black king h8 and pawns d5 and f5.  The pawn can advance to e5 or take
    on either side. *)
Module Skirmish.

Definition twoCapturesFen : string := "7k/8/8/3p1p2/4P3/8/8/7K w - - 0 1".

Definition twoCapturesMoves : list (string * (string * MoveResult)) :=
  [("e5", ("7k/8/8/3pPp2/8/8/8/7K b - - 0 1",
     {| color := w; captured := None |}));
   ("exd5", ("7k/8/8/3P1p2/8/8/8/7K b - - 0 1",
     {| color := w; captured := Some "p" |}));
   ("exf5", ("7k/8/8/3p1P2/8/8/8/7K b - - 0 1",
     {| color := w; captured := Some "p" |}));
   ("Kg2", ("7k/8/8/3p1p2/4P3/8/6K1/8 b - - 1 1",
     {| color := w; captured := None |}));
   ("Kh2", ("7k/8/8/3p1p2/4P3/8/7K/8 b - - 1 1",
     {| color := w; captured := None |}));
   ("Kg1", ("7k/8/8/3p1p2/4P3/8/8/6K1 b - - 1 1",
     {| color := w; captured := None |}))].

Definition table (position : string) : list (string * (string * MoveResult)) :=
  if String.eqb position twoCapturesFen then twoCapturesMoves
  else Excerpt.table position.

#[export] Instance chess : ChessJs := {|
  Chess := string;
  newChess := Excerpt.startFen;
  load := fun position => position;
  fen := fun g => g;
  moves := fun g => map fst (table g);
  move := fun g san => Normal (Excerpt.lookup san (table g));
  turn := fun g => if includes g " w " then w else b;
  isGameOver := fun g => String.eqb g Excerpt.foolsMateFen
|}.

Definition position (f : string) : @Chess chess := f.

End Skirmish.

(** * Properties *)

(** ** The JavaScript primitives *)

Lemma prefix_append (n rest : string) : String.prefix n (n ++ rest)%string = true.
Proof.
  induction n as [|c n IH]; simpl.
  - now destruct rest.
  - destruct (ascii_dec c c) as [_|ne]; [exact IH | now elim ne].
Qed.

Lemma includes_prefix (hay n : string) :
  String.prefix n hay = true -> includes hay n = true.
Proof.
  destruct hay; simpl; intros H; [exact H | now rewrite H].
Qed.

Lemma includes_inside (pre n suf : string) :
  includes (pre ++ n ++ suf)%string n = true.
Proof.
  induction pre as [|c pre IH]; simpl.
  - apply includes_prefix, prefix_append.
  - rewrite IH. apply orb_true_r.
Qed.

Lemma string_of_list_app (l1 l2 : list ascii) :
  string_of_list_ascii (l1 ++ l2)%list =
  (string_of_list_ascii l1 ++ string_of_list_ascii l2)%string.
Proof.
  induction l1 as [|c l1 IH]; simpl; [reflexivity | now rewrite IH].
Qed.

(** The double of a draw from 0 to 1 is a double below 1. *)
Lemma ofQ_belowOne (r : Q) : 0 <= r < 1 -> Double.belowOne (Double.ofQ r).
Proof.
  intros [Hlo Hhi]. destruct r as [p q]. unfold Double.ofQ.
  simpl Qnum. simpl Qden.
  unfold Qle in Hlo. unfold Qlt in Hhi. simpl in Hlo, Hhi.
  destruct (Z.leb_spec p 0) as [Hp|Hp]; [now left|].
  right.
  assert (Hq : (0 < Z.pos q)%Z) by lia.
  assert (Hpq : (p < Z.pos q)%Z) by lia.
  destruct (Z.log2_spec p Hp) as [Hp1 Hp2].
  destruct (Z.log2_spec (Z.pos q) Hq) as [Hq1 Hq2].
  assert (Hlp : (0 <= Z.log2 p)%Z) by apply Z.log2_nonneg.
  assert (Hlq : (0 <= Z.log2 (Z.pos q))%Z) by apply Z.log2_nonneg.
  assert (Hle : (Z.log2 p <= Z.log2 (Z.pos q))%Z)
    by (apply Z.log2_le_mono; lia).
  set (lp := Z.log2 p) in *. set (lq := Z.log2 (Z.pos q)) in *.
  set (k := (53 + lq - lp)%Z).
  replace (- (lp - lq - 53))%Z with k by (unfold k; lia).
  assert (Hk : (53 <= k)%Z) by (unfold k; lia).
  unfold Double.scaledFloor.
  destruct (Z.leb_spec 0 k) as [_|Hneg]; [|lia].
  set (m0 := (p * 2 ^ k / Z.pos q)%Z).
  assert (Hk2 : (0 < 2 ^ k)%Z) by (apply Z.pow_pos_nonneg; lia).
  assert (E1 : (2 ^ lp * 2 ^ k = 2 ^ 52 * 2 ^ Z.succ lq)%Z).
  { rewrite <- !Z.pow_add_r by lia. f_equal. unfold k. lia. }
  assert (E2 : (2 ^ Z.succ lp * 2 ^ k = 2 ^ 54 * 2 ^ lq)%Z).
  { rewrite <- !Z.pow_add_r by lia. f_equal. unfold k. lia. }
  assert (B1 : (2 ^ 52 <= m0)%Z).
  { apply Z.div_le_lower_bound; [lia|].
    assert (2 ^ lp * 2 ^ k <= p * 2 ^ k)%Z
      by (apply Z.mul_le_mono_nonneg_r; lia).
    assert (Z.pos q * 2 ^ 52 <= 2 ^ 52 * 2 ^ Z.succ lq)%Z by lia.
    lia. }
  assert (B2 : (m0 < 2 ^ 54)%Z).
  { apply Z.div_lt_upper_bound; [lia|].
    assert (p * 2 ^ k < 2 ^ Z.succ lp * 2 ^ k)%Z
      by (apply Z.mul_lt_mono_pos_r; lia).
    assert (2 ^ 54 * 2 ^ lq <= Z.pos q * 2 ^ 54)%Z by lia.
    lia. }
  assert (B3 : (m0 < 2 ^ k)%Z).
  { apply Z.div_lt_upper_bound; [lia|].
    apply Z.mul_lt_mono_pos_r; lia. }
  destruct (Z.ltb_spec m0 (2 ^ 53)) as [Hs|Hb]; simpl.
  - repeat split; try lia.
    replace (- (lp - lq - 53))%Z with k by (unfold k; lia). exact B3.
  - assert (Hk1 : (2 ^ k = 2 * 2 ^ (k - 1))%Z).
    { replace k with (1 + (k - 1))%Z at 1 by lia.
      rewrite Z.pow_add_r by lia. reflexivity. }
    replace (- (lp - lq - 53 + 1))%Z with (k - 1)%Z by (unfold k; lia).
    assert (m0 / 2 < 2 ^ (k - 1))%Z by (apply Z.div_lt_upper_bound; lia).
    assert (2 ^ 52 <= m0 / 2)%Z by (apply Z.div_le_lower_bound; lia).
    assert (m0 / 2 < 2 ^ 53)%Z by (apply Z.div_lt_upper_bound; lia).
    repeat split; lia.
Qed.

(** A double is its own double: the rational [m / 2^k] with a significand
    [m] of 53 digits is returned as it is.  So every such double below 1
    is the outcome of [Math.random] for some draw. *)
Lemma ofQ_double (m : Z) (k : positive) :
  (2 ^ 52 <= m < 2 ^ 53)%Z ->
  Double.ofQ (m # 2 ^ k) =
  {| Double.significand := m; Double.exponent := (- Z.pos k)%Z |}.
Proof.
  intros [Hlo Hhi]. unfold Double.ofQ. simpl Qnum. simpl Qden.
  destruct (Z.leb_spec m 0) as [Hm|Hm]; [lia|].
  assert (Lm : Z.log2 m = 52%Z) by (apply Z.log2_unique; lia).
  assert (Lq : Z.log2 (Z.pos (2 ^ k)) = Z.pos k).
  { rewrite Pos2Z.inj_pow. apply Z.log2_pow2. lia. }
  rewrite Lm, Lq.
  replace (- (52 - Z.pos k - 53))%Z with (Z.succ (Z.pos k)) by lia.
  unfold Double.scaledFloor.
  destruct (Z.leb_spec 0 (Z.succ (Z.pos k))) as [_|Hneg]; [|lia].
  rewrite Pos2Z.inj_pow, Z.pow_succ_r by lia.
  assert (Hk : (0 < 2 ^ Z.pos k)%Z) by (apply Z.pow_pos_nonneg; lia).
  replace (m * (2 * 2 ^ Z.pos k))%Z with (2 * m * 2 ^ Z.pos k)%Z by lia.
  rewrite Z.div_mul by lia.
  destruct (Z.ltb_spec (2 * m) (2 ^ 53)) as [Hs|_]; [lia|].
  f_equal; [|lia].
  rewrite Z.mul_comm. apply Z.div_mul. lia.
Qed.

(** The integer part of [M * 2^(P - k)] is below [n] when [M * 2^P] is
    below [n * 2^k]. *)
Lemma floor_below (M E k P n : Z) :
  (0 <= M)%Z -> (0 < k)%Z -> (0 <= P)%Z -> (0 < n)%Z ->
  (E = P - k)%Z ->
  (M * 2 ^ P < n * 2 ^ k)%Z ->
  (0 <= Double.floor {| Double.significand := M; Double.exponent := E |}
   < n)%Z.
Proof.
  intros HM Hk HP Hn HE H. unfold Double.floor. simpl.
  assert (HK : (0 < 2 ^ k)%Z) by (apply Z.pow_pos_nonneg; lia).
  assert (HPp : (0 < 2 ^ P)%Z) by (apply Z.pow_pos_nonneg; lia).
  destruct (Z.leb_spec 0 E) as [Hpos|Hneg].
  - assert (HE2 : (0 < 2 ^ E)%Z) by (apply Z.pow_pos_nonneg; lia).
    assert (Eq : (2 ^ P = 2 ^ E * 2 ^ k)%Z).
    { rewrite <- Z.pow_add_r by lia. f_equal. lia. }
    rewrite Eq in H. split; [nia|].
    apply Z.mul_lt_mono_pos_r with (2 ^ k)%Z; [exact HK|]. lia.
  - assert (HE2 : (0 < 2 ^ (- E))%Z) by (apply Z.pow_pos_nonneg; lia).
    assert (Eq : (2 ^ k = 2 ^ (- E) * 2 ^ P)%Z).
    { rewrite <- Z.pow_add_r by lia. f_equal. lia. }
    rewrite Eq in H. split; [apply Z.div_pos; lia|].
    apply Z.div_lt_upper_bound; [exact HE2|].
    apply Z.mul_lt_mono_pos_r with (2 ^ P)%Z; [exact HPp|]. lia.
Qed.

(** The rounded product of a double below 1 and an array length never
    reaches the length: the index is a position of the array.  When the
    product is rounded up, the exact product [a] has at least half a unit
    [2^(s-1)] in its last place left over, the length is more than this
    half unit, and [a] plus the length is at most the length times
    [2^k]. *)
Lemma floorTimes_range (d : Double.t) (n : nat) :
  Double.belowOne d -> (0 < n)%nat -> (0 <= floorTimes d n < Z.of_nat n)%Z.
Proof.
  intros Hd Hn. unfold floorTimes, Double.times.
  set (N := Z.of_nat n). assert (HN : (0 < N)%Z) by (unfold N; lia).
  destruct d as [m e]. unfold Double.belowOne in Hd. simpl in *.
  destruct Hd as [Hz|[[Hm1 Hm2] [He Hmk]]].
  - subst m. simpl. unfold Double.floor. simpl.
    destruct (0 <=? e)%Z; rewrite ?Zdiv_0_l; lia.
  - set (k := (- e)%Z) in *. assert (Hk : (0 < k)%Z) by (unfold k; lia).
    assert (HK : (0 < 2 ^ k)%Z) by (apply Z.pow_pos_nonneg; lia).
    set (a := (m * N)%Z).
    assert (Ha : (0 < a)%Z) by (unfold a; nia).
    assert (HaK : (a + N <= N * 2 ^ k)%Z) by (unfold a; nia).
    destruct (Z.leb_spec (Z.log2 a - 52) 0) as [Hs|Hs].
    + apply (floor_below a e k 0 N); lia.
    + set (s := (Z.log2 a - 52)%Z) in *.
      destruct (Z.log2_spec a Ha) as [L1 L2].
      assert (HP : (0 < 2 ^ s)%Z) by (apply Z.pow_pos_nonneg; lia).
      assert (EP : (2 ^ s = 2 * 2 ^ (s - 1))%Z).
      { replace s with (1 + (s - 1))%Z at 1 by lia.
        rewrite Z.pow_add_r by lia. reflexivity. }
      assert (HH : (0 < 2 ^ (s - 1))%Z) by (apply Z.pow_pos_nonneg; lia).
      assert (EL : (2 ^ Z.log2 a = 2 ^ 52 * 2 ^ s)%Z).
      { rewrite <- Z.pow_add_r by lia. f_equal. unfold s. lia. }
      pose proof (Z.div_mod a (2 ^ s) ltac:(lia)) as Hdm.
      pose proof (Z.mod_pos_bound a (2 ^ s) HP) as Hmod.
      set (q := (a / 2 ^ s)%Z) in *. set (rest := (a mod 2 ^ s)%Z) in *.
      assert (Hq0 : (0 <= q)%Z) by (unfold q; apply Z.div_pos; lia).
      assert (HnH : (2 ^ (s - 1) < N)%Z).
      { assert (a < 2 ^ 53 * N)%Z by (unfold a; nia).
        assert (2 ^ 53 * 2 ^ (s - 1) <= a)%Z by lia.
        nia. }
      destruct ((2 ^ (s - 1) <? rest)%Z ||
                ((rest =? 2 ^ (s - 1))%Z && Z.odd q)) eqn:Hup.
      * assert (Hr : (2 ^ (s - 1) <= rest)%Z).
        { apply orb_true_iff in Hup. destruct Hup as [H|H].
          - apply Z.ltb_lt in H. lia.
          - apply andb_true_iff in H. destruct H as [H _].
            apply Z.eqb_eq in H. lia. }
        apply (floor_below (q + 1) (e + s) k s N); lia.
      * apply (floor_below q (e + s) k s N); lia.
Qed.

(** The product is rounded, not exact: seven times the double
    0.5714285714285714 is half a unit in the last place below 4 and is
    rounded up to 4, where the exact product has the integer part 3. *)
Lemma floorTimes_rounds :
  floorTimes (Double.ofQ (2573485501354569 # 4503599627370496)) 7 = 4%Z /\
  Qfloor ((2573485501354569 # 4503599627370496) * inject_Z 7) = 3%Z.
Proof. split; reflexivity. Qed.

Lemma index_nth_error {A : Type} (arr : list A) (i : nat) :
  index arr (Z.of_nat i) = nth_error arr i.
Proof.
  unfold index. destruct (Z.ltb_spec (Z.of_nat i) 0); [lia|].
  now rewrite Nat2Z.id.
Qed.

Lemma above07_true (r : Double.t) :
  above07 r = true <-> 7 # 10 < Double.value r.
Proof.
  unfold above07. rewrite negb_true_iff. split.
  - intros H. apply Qnot_le_lt. intros L.
    apply Qle_bool_iff in L. congruence.
  - intros H. destruct (Qle_bool (Double.value r) (7 # 10)) eqn:E;
      [|reflexivity].
    apply Qle_bool_iff in E. now apply Qlt_not_le in H.
Qed.

Lemma above07_false (r : Double.t) :
  above07 r = false <-> Double.value r <= 7 # 10.
Proof.
  unfold above07. rewrite negb_false_iff. apply Qle_bool_iff.
Qed.

(** ** The text of a move and its destination *)

Lemma dropMark_split (r : list ascii) :
  exists d, r = (d ++ San.dropMark r)%list.
Proof.
  destruct r as [|c rest]; simpl.
  - now exists [].
  - destruct (San.isMark c); [now exists [c] | now exists []].
Qed.

Lemma dropPromotion_split (r : list ascii) :
  exists d, r = (d ++ San.dropPromotion r)%list.
Proof.
  destruct r as [|p [|c rest]]; simpl; try now exists [].
  destruct (Ascii.eqb c "="); [now exists [p; c] | now exists []].
Qed.

(** The destination of a move is written in its text. *)
Lemma destination_includes (mv sq : string) :
  San.destination mv = Some sq -> includes mv sq = true.
Proof.
  unfold San.destination. intros H.
  destruct (dropMark_split (rev (list_ascii_of_string mv))) as [d1 E1].
  destruct (dropPromotion_split (San.dropMark (rev (list_ascii_of_string mv))))
    as [d2 E2].
  destruct (San.dropPromotion (San.dropMark (rev (list_ascii_of_string mv))))
    as [|rank [|file rest]]; try discriminate.
  destruct (San.isFile file && San.isRank rank); [|discriminate].
  injection H as <-.
  rewrite E2 in E1.
  apply (f_equal (@rev ascii)) in E1. rewrite rev_involutive in E1.
  apply (f_equal string_of_list_ascii) in E1.
  rewrite string_of_list_ascii_of_string in E1.
  rewrite !rev_app_distr in E1. simpl in E1.
  rewrite <- !app_assoc in E1. simpl in E1.
  rewrite string_of_list_app in E1. simpl in E1.
  rewrite E1.
  apply (includes_inside (string_of_list_ascii (rev rest))
           (String file (String rank EmptyString))
           (string_of_list_ascii (rev d2 ++ rev d1)%list)).
Qed.

(** A move that goes to a center square passes the test of the source. *)
Lemma goesToCenter_isCenterMove (mv : string) :
  San.goesToCenter mv = true -> isCenterMove mv = true.
Proof.
  unfold San.goesToCenter, San.isCenterSquare, isCenterMove.
  destruct (San.destination mv) as [sq|] eqn:E; [|discriminate].
  apply destination_includes in E.
  rewrite !orb_true_iff, !String.eqb_eq.
  intros [[[H|H]|H]|H]; subst sq; rewrite E; auto using orb_true_r.
Qed.

(** ** The move policy *)

Section Policy.

Context {lib : ChessJs}.
Variable random : nat -> Q.

(** [Math.random] returns a number from 0, included, to 1, excluded. *)
Hypothesis random_range : forall k, 0 <= random k < 1.

(** A draw over a non-empty array returns its element at the position
    [Math.floor(Math.random() * length)], which is a position of the
    array, and uses one call of [Math.random]. *)
Lemma pick_spec (arr : list string) (k : nat) :
  arr <> [] ->
  exists i mv,
    pick random arr k = (Normal (Some mv), S k) /\
    nth_error arr i = Some mv /\
    floorTimes (Double.ofQ (random k)) (length arr) = Z.of_nat i.
Proof.
  intros Hne.
  assert (Hlen : (0 < length arr)%nat).
  { destruct arr; [congruence | simpl; lia]. }
  destruct (floorTimes_range (Double.ofQ (random k)) (length arr)
              (ofQ_belowOne _ (random_range k)) Hlen) as [Hlo Hhi].
  set (i := Z.to_nat (floorTimes (Double.ofQ (random k)) (length arr))).
  assert (Hi : floorTimes (Double.ofQ (random k)) (length arr) = Z.of_nat i).
  { unfold i. now rewrite Z2Nat.id. }
  destruct (nth_error arr i) as [mv|] eqn:E.
  - exists i, mv. repeat split.
    + unfold pick, bind, mathRandom, ret. now rewrite Hi, index_nth_error, E.
    + exact E.
    + exact Hi.
  - apply nth_error_None in E. lia.
Qed.

Lemma filter_nonempty (f : string -> bool) (l : list string) (x : string) :
  In x l -> f x = true -> filter f l <> [].
Proof.
  intros Hin Hf E.
  assert (H : In x (filter f l)) by (apply filter_In; auto).
  rewrite E in H. exact H.
Qed.

Lemma length_zero_eqb (l : list string) :
  l <> [] -> (length l =? 0)%nat = false.
Proof. destruct l; [congruence | reflexivity]. Qed.

(** The three tiers, by case on the move list and on the tier draw. *)
Lemma generateAIMove_capture (g : Chess) (k : nat) :
  filter isCaptureMove (moves g) <> [] ->
  generateAIMove random g k = pick random (filter isCaptureMove (moves g)) k.
Proof.
  intros Hc. unfold generateAIMove.
  assert (Hm : moves g <> []).
  { intros E. rewrite E in Hc. now apply Hc. }
  rewrite (length_zero_eqb _ Hm).
  destruct (filter isCaptureMove (moves g)); [congruence | reflexivity].
Qed.

Lemma generateAIMove_center (g : Chess) (k : nat) :
  filter isCaptureMove (moves g) = [] ->
  filter isCenterMove (moves g) <> [] ->
  above07 (Double.ofQ (random k)) = true ->
  generateAIMove random g k =
  pick random (filter isCenterMove (moves g)) (S k).
Proof.
  intros Hc Hz Hr. unfold generateAIMove.
  assert (Hm : moves g <> []).
  { intros E. rewrite E in Hz. now apply Hz. }
  rewrite (length_zero_eqb _ Hm), Hc. simpl.
  assert (H0 : (0 <? length (filter isCenterMove (moves g)))%nat = true).
  { destruct (filter isCenterMove (moves g)); [congruence | reflexivity]. }
  unfold bind at 1. rewrite H0. unfold bind at 1.
  unfold mathRandom at 1. unfold ret at 1. cbv beta iota. now rewrite Hr.
Qed.

Lemma generateAIMove_all_after_draw (g : Chess) (k : nat) :
  filter isCaptureMove (moves g) = [] ->
  filter isCenterMove (moves g) <> [] ->
  above07 (Double.ofQ (random k)) = false ->
  generateAIMove random g k = pick random (moves g) (S k).
Proof.
  intros Hc Hz Hr. unfold generateAIMove.
  assert (Hm : moves g <> []).
  { intros E. rewrite E in Hz. now apply Hz. }
  rewrite (length_zero_eqb _ Hm), Hc. simpl.
  assert (H0 : (0 <? length (filter isCenterMove (moves g)))%nat = true).
  { destruct (filter isCenterMove (moves g)); [congruence | reflexivity]. }
  unfold bind at 1. rewrite H0. unfold bind at 1.
  unfold mathRandom at 1. unfold ret at 1. cbv beta iota. now rewrite Hr.
Qed.

Lemma generateAIMove_all (g : Chess) (k : nat) :
  moves g <> [] ->
  filter isCaptureMove (moves g) = [] ->
  filter isCenterMove (moves g) = [] ->
  generateAIMove random g k = pick random (moves g) k.
Proof.
  intros Hm Hc Hz. unfold generateAIMove.
  rewrite (length_zero_eqb _ Hm), Hc, Hz. reflexivity.
Qed.

Lemma generateAIMove_empty (g : Chess) (k : nat) :
  moves g = [] -> generateAIMove random g k = (Normal None, k).
Proof.
  intros Hm. unfold generateAIMove. now rewrite Hm.
Qed.

Lemma filter_empty (f : string -> bool) (l : list string) :
  (forall x, In x l -> f x = false) -> filter f l = [].
Proof.
  intros H. destruct (filter f l) as [|x rest] eqn:E; [reflexivity|].
  assert (Hx : In x (filter f l)) by (rewrite E; now left).
  apply filter_In in Hx. destruct Hx as [Hin Hf].
  rewrite (H x Hin) in Hf. discriminate.
Qed.

(** C1. Let the library write an x in the text of exactly the moves that
    capture.  Whenever some legal move captures a piece, the policy
    returns a move that captures a piece: a legal move, taken from the
    list of the capturing moves, which holds all of them and no other
    move, at the position [Math.floor(Math.random() * length)] of that
    list.  It makes one draw only: neither the presence of center moves
    nor any draw sends the choice to another tier. *)
Theorem capture_tier_first (g : Chess) (k : nat) :
  marksCaptures ->
  (exists mv, In mv (moves g) /\ capturesPiece g mv) ->
  let captureMoves := filter (fun m => includes m "x") (moves g) in
  exists i mv,
    generateAIMove random g k = (Normal (Some mv), S k) /\
    In mv (moves g) /\
    capturesPiece g mv /\
    nth_error captureMoves i = Some mv /\
    floorTimes (Double.ofQ (random k)) (length captureMoves) = Z.of_nat i /\
    (forall m, In m captureMoves <-> In m (moves g) /\ capturesPiece g m).
Proof.
  intros Hlaw [c [Hin Hc]] captureMoves.
  assert (Hx : isCaptureMove c = true) by exact (proj2 (Hlaw g c Hin) Hc).
  assert (Hne : filter isCaptureMove (moves g) <> [])
    by (eapply filter_nonempty; eauto).
  destruct (pick_spec _ k Hne) as [i [mv [Hp [Hn Hi]]]].
  exists i, mv.
  assert (Hmem : In mv (filter isCaptureMove (moves g)))
    by (eapply nth_error_In; eauto).
  apply filter_In in Hmem. destruct Hmem as [Hmv Hcap].
  rewrite generateAIMove_capture by exact Hne.
  split; [exact Hp|]. split; [exact Hmv|].
  split; [exact (proj1 (Hlaw g mv Hmv) Hcap)|].
  split; [exact Hn|]. split; [exact Hi|].
  intros m. unfold captureMoves. rewrite filter_In. split.
  - intros [Hm Hxm]. split; [exact Hm | exact (proj1 (Hlaw g m Hm) Hxm)].
  - intros [Hm Hcm]. split; [exact Hm | exact (proj2 (Hlaw g m Hm) Hcm)].
Qed.

(** C2. Over a non-empty list of legal moves the policy returns, whatever
    the draws, one of the moves of the list. *)
Theorem generateAIMove_member (g : Chess) (k : nat) :
  moves g <> [] ->
  exists mv k',
    generateAIMove random g k = (Normal (Some mv), k') /\ In mv (moves g).
Proof.
  intros Hm.
  destruct (filter isCaptureMove (moves g)) as [|c cs] eqn:Ec.
  - destruct (filter isCenterMove (moves g)) as [|z zs] eqn:Ez.
    + destruct (pick_spec _ k Hm) as [i [mv [Hp [Hn _]]]].
      exists mv, (S k). rewrite generateAIMove_all by assumption.
      split; [exact Hp | eapply nth_error_In; eauto].
    + assert (Hz : filter isCenterMove (moves g) <> [])
        by (rewrite Ez; discriminate).
      destruct (above07 (Double.ofQ (random k))) eqn:Hr.
      * destruct (pick_spec _ (S k) Hz) as [i [mv [Hp [Hn _]]]].
        exists mv, (S (S k)). rewrite generateAIMove_center by assumption.
        split; [exact Hp|].
        apply nth_error_In in Hn. apply filter_In in Hn. tauto.
      * destruct (pick_spec _ (S k) Hm) as [i [mv [Hp [Hn _]]]].
        exists mv, (S (S k)).
        rewrite generateAIMove_all_after_draw by assumption.
        split; [exact Hp | eapply nth_error_In; eauto].
  - assert (Hne : filter isCaptureMove (moves g) <> [])
      by (rewrite Ec; discriminate).
    destruct (pick_spec _ k Hne) as [i [mv [Hp [Hn _]]]].
    exists mv, (S k). rewrite generateAIMove_capture by assumption.
    split; [exact Hp|].
    apply nth_error_In in Hn. apply filter_In in Hn. tauto.
Qed.

(** C4, as the code has it.  Called on a position without legal moves,
    the policy returns [null]: it completes normally and draws nothing.
    The timer callback takes the [null] for the absence of a move and ends
    normally without calling the state setter. *)
Theorem empty_move_set_returns_null (closure : GameState) (k : nat) :
  moves (load (fen (game closure))) = [] ->
  generateAIMove random (load (fen (game closure))) k = (Normal None, k) /\
  timerCallback random closure k = (Normal None, k).
Proof.
  intros Hm. split.
  - now apply generateAIMove_empty.
  - unfold timerCallback, bind. now rewrite generateAIMove_empty.
Qed.

(** Where every legal move that passes the test of the source goes to a
    center square, the tier of the source is the set of the moves that go
    to a center square. *)
Lemma center_tier_agrees (g : Chess) :
  (forall mv, In mv (moves g) -> isCenterMove mv = true ->
              San.goesToCenter mv = true) ->
  filter isCenterMove (moves g) = filter San.goesToCenter (moves g).
Proof.
  intros H. apply filter_ext_in. intros mv Hin.
  destruct (isCenterMove mv) eqn:Ec.
  - symmetry. now apply H.
  - destruct (San.goesToCenter mv) eqn:Eg; [|reflexivity].
    apply goesToCenter_isCenterMove in Eg. congruence.
Qed.

(** The center tier as the source computes it.  Let no legal move be a
    capture.  The tier is made of the moves whose text contains e4, e5, d4
    or d5; every move that goes to one of these squares is among them.
    When the tier is not empty the policy draws once for the tier: on a
    double above 7/10 it returns the center move at the position given by
    its second draw; otherwise it returns the legal move at the position
    given by that draw.  When the tier is empty there is no tier draw, and
    the one draw gives the position among all legal moves.  The result
    depends on the position only through its list of legal moves. *)
Theorem center_tier_by_text (g : Chess) (k : nat) :
  moves g <> [] ->
  (forall mv, In mv (moves g) -> isCaptureMove mv = false) ->
  let centerMoves := filter isCenterMove (moves g) in
  (centerMoves <> [] -> 7 # 10 < Double.value (Double.ofQ (random k)) ->
   exists i mv,
     generateAIMove random g k = (Normal (Some mv), S (S k)) /\
     nth_error centerMoves i = Some mv /\
     floorTimes (Double.ofQ (random (S k))) (length centerMoves) =
       Z.of_nat i) /\
  (centerMoves <> [] -> Double.value (Double.ofQ (random k)) <= 7 # 10 ->
   exists i mv,
     generateAIMove random g k = (Normal (Some mv), S (S k)) /\
     nth_error (moves g) i = Some mv /\
     floorTimes (Double.ofQ (random (S k))) (length (moves g)) =
       Z.of_nat i) /\
  (centerMoves = [] ->
   exists i mv,
     generateAIMove random g k = (Normal (Some mv), S k) /\
     nth_error (moves g) i = Some mv /\
     floorTimes (Double.ofQ (random k)) (length (moves g)) = Z.of_nat i) /\
  (forall mv, In mv (moves g) -> San.goesToCenter mv = true ->
              In mv centerMoves) /\
  (forall g', moves g' = moves g ->
              generateAIMove random g' k = generateAIMove random g k).
Proof.
  intros Hm Hnc centerMoves.
  assert (Hc : filter isCaptureMove (moves g) = [])
    by now apply filter_empty.
  repeat split.
  - intros Hz Hr. apply above07_true in Hr.
    destruct (pick_spec _ (S k) Hz) as [i [mv [Hp [Hn Hi]]]].
    exists i, mv. rewrite generateAIMove_center by assumption.
    repeat split; assumption.
  - intros Hz Hr. apply above07_false in Hr.
    destruct (pick_spec _ (S k) Hm) as [i [mv [Hp [Hn Hi]]]].
    exists i, mv. rewrite generateAIMove_all_after_draw by assumption.
    repeat split; assumption.
  - intros Hz.
    destruct (pick_spec _ k Hm) as [i [mv [Hp [Hn Hi]]]].
    exists i, mv. rewrite generateAIMove_all by assumption.
    repeat split; assumption.
  - intros mv Hin Hgo. apply filter_In. split; [exact Hin|].
    now apply goesToCenter_isCenterMove.
  - intros g' E. unfold generateAIMove. now rewrite E.
Qed.

End Policy.

(** ** The session *)

Section Sessions.

Context {lib : ChessJs}.
Variable random : nat -> Q.

Lemma effect_inactive (gs : GameState) :
  isGameActive gs = false -> effect gs = None.
Proof. intros H. unfold effect. now rewrite H. Qed.

Lemma effect_over (gs : GameState) :
  isGameOver (game gs) = true -> effect gs = None.
Proof. intros H. unfold effect. rewrite H. now rewrite orb_true_r. Qed.

Lemma effect_playing (gs : GameState) :
  isGameActive gs = true -> isGameOver (game gs) = false ->
  effect gs = Some {| remaining := gameSpeed gs; closure := gs |}.
Proof. intros Ha Ho. unfold effect. now rewrite Ha, Ho. Qed.

Lemma effect_wellFormed (gs : GameState) :
  wellFormed {| gameState := gs; timer := effect gs |}.
Proof.
  unfold wellFormed, effect. simpl.
  destruct (isGameActive gs) eqn:Ha, (isGameOver (game gs)) eqn:Ho; simpl; auto.
Qed.

(** Without a pending timer the passing of time changes nothing. *)
Lemma elapse_idle (ms : Z) (s : Session) (k : nat) :
  timer s = None -> elapse random ms s k = (s, k).
Proof. intros H. unfold elapse. now rewrite H. Qed.

Lemma run_elapse_idle (ticks : list Z) (s : Session) (k : nat) :
  timer s = None -> run random (map Elapse ticks) s k = (s, k).
Proof.
  intros H. induction ticks as [|ms ticks IH]; simpl.
  - reflexivity.
  - now rewrite elapse_idle.
Qed.

Lemma wellFormed_active (s : Session) (t : Timer) :
  wellFormed s -> timer s = Some t ->
  closure t = gameState s /\
  isGameActive (gameState s) = true /\
  isGameOver (game (gameState s)) = false.
Proof. unfold wellFormed. intros W E. now rewrite E in W. Qed.

(** Once the game is over no timer is pending. *)
Lemma over_no_timer (s : Session) :
  wellFormed s -> isGameOver (game (gameState s)) = true -> timer s = None.
Proof.
  intros W Ho. destruct (timer s) as [t|] eqn:E; [|reflexivity].
  destruct (wellFormed_active s t W E) as [_ [_ Hn]]. congruence.
Qed.

Lemma inactive_no_timer (s : Session) :
  wellFormed s -> isGameActive (gameState s) = false -> timer s = None.
Proof.
  intros W Ha. destruct (timer s) as [t|] eqn:E; [|reflexivity].
  destruct (wellFormed_active s t W E) as [_ [Hn _]]. congruence.
Qed.

Lemma sameDeps_active (old new : GameState) :
  sameDeps old new = true -> isGameActive new = isGameActive old.
Proof.
  unfold sameDeps. rewrite !andb_true_iff. intros [[_ H] _].
  symmetry. now apply Bool.eqb_prop.
Qed.

Lemma sameDeps_speed (old new : GameState) :
  sameDeps old new = true -> gameSpeed new = gameSpeed old.
Proof.
  unfold sameDeps. rewrite !andb_true_iff. intros [_ H].
  symmetry. now apply Z.eqb_eq.
Qed.

Lemma pause_clears_timer (s : Session) :
  wellFormed s -> timer (setGameState true pauseGame s) = None.
Proof.
  intros W. unfold setGameState. simpl.
  destruct (sameDeps (gameState s) (pauseGame (gameState s))) eqn:D.
  - apply sameDeps_active in D. simpl in D.
    apply inactive_no_timer; [exact W | now symmetry].
  - now apply effect_inactive.
Qed.

Lemma reset_clears_timer (s : Session) :
  timer (setGameState false resetGame s) = None.
Proof. reflexivity. Qed.

(** An update keeps the session well formed when, each time it leaves the
    dependencies of the effect as they are, it leaves the whole state as
    it is. *)
Lemma setGameState_wellFormed (keeps : bool) (f : GameState -> GameState)
  (s : Session) :
  wellFormed s ->
  (sameDeps (gameState s) (f (gameState s)) = true -> timer s <> None ->
   f (gameState s) = gameState s) ->
  wellFormed (setGameState keeps f s).
Proof.
  intros W Hf. unfold setGameState.
  destruct (keeps && sameDeps (gameState s) (f (gameState s))) eqn:D.
  - apply andb_true_iff in D. destruct D as [_ D].
    destruct (timer s) as [t|] eqn:E.
    + rewrite (Hf D) by discriminate.
      unfold wellFormed. simpl.
      exact (wellFormed_active s t W E).
    + exact I.
  - apply effect_wellFormed.
Qed.

Lemma step_wellFormed (e : Event) (s : Session) (k : nat) :
  wellFormed s -> wellFormed (fst (step random e s k)).
Proof.
  intros W. destruct e as [| | |v|ms]; simpl.
  - apply setGameState_wellFormed; [exact W|]. intros D Ht.
    apply sameDeps_active in D. simpl in D.
    destruct (gameState s); simpl in *. now subst.
  - apply setGameState_wellFormed; [exact W|]. intros D Ht.
    apply sameDeps_active in D. simpl in D.
    destruct (gameState s); simpl in *. now subst.
  - apply effect_wellFormed.
  - apply setGameState_wellFormed; [exact W|]. intros D Ht.
    apply sameDeps_speed in D. simpl in D.
    destruct (gameState s); simpl in *. now subst.
  - unfold elapse. destruct (timer s) as [t|] eqn:E; [|exact W].
    destruct (ms <? remaining t)%Z.
    + unfold wellFormed. simpl. exact (wellFormed_active s t W E).
    + destruct (timerCallback random (closure t) k) as [[[p|]|err] k'];
        simpl; try exact I.
      apply effect_wellFormed.
Qed.

Lemma run_wellFormed (es : list Event) (s : Session) (k : nat) :
  wellFormed s -> wellFormed (fst (run random es s k)).
Proof.
  revert s k. induction es as [|e es IH]; intros s k W; simpl.
  - exact W.
  - destruct (step random e s k) as [s' k'] eqn:E.
    apply IH. change s' with (fst (s', k')). rewrite <- E.
    now apply step_wellFormed.
Qed.

(** Every session the component can be in is well formed. *)
Lemma reachable_wellFormed (es : list Event) (k : nat) :
  wellFormed (fst (run random es mount k)).
Proof. apply run_wellFormed. apply effect_wellFormed. Qed.

(** C3, as the code has it.  The delay command stores the value it is
    given, whatever it is, and leaves the rest of the state as it was; a
    value from 500 to 5000, which is all the slider of the page sends, is
    stored as such. *)
Theorem handleSpeedChange_stores (s : Session) (v : Z) (k : nat) :
  let s' := fst (step random (SpeedChange v) s k) in
  gameSpeed (gameState s') = v /\
  game (gameState s') = game (gameState s) /\
  gameHistory (gameState s') = gameHistory (gameState s) /\
  isGameActive (gameState s') = isGameActive (gameState s) /\
  currentPlayer (gameState s') = currentPlayer (gameState s) /\
  capturedPieces (gameState s') = capturedPieces (gameState s) /\
  snd (step random (SpeedChange v) s k) = k.
Proof. simpl. repeat split. Qed.

(** C6. After a pause or a reset no timer is pending: however much time
    passes afterwards, in however many steps, the session stays exactly as
    the command left it, so that no move is applied to the board, the
    history or the capture lists; a pause itself leaves those three as they
    were.  Likewise, in a session whose game is over, the passing of time
    changes nothing. *)
Theorem cancelled_tick_applies_nothing (s : Session) :
  wellFormed s ->
  (forall (e : Event) (k : nat) (ticks : list Z) (k' : nat),
      e = Pause \/ e = Reset ->
      let s' := fst (step random e s k) in
      timer s' = None /\
      run random (map Elapse ticks) s' k' = (s', k')) /\
  (forall k : nat,
      let s' := fst (step random Pause s k) in
      game (gameState s') = game (gameState s) /\
      gameHistory (gameState s') = gameHistory (gameState s) /\
      capturedPieces (gameState s') = capturedPieces (gameState s)) /\
  (isGameOver (game (gameState s)) = true ->
   forall (ms : Z) (k : nat), step random (Elapse ms) s k = (s, k)).
Proof.
  intros W.
  assert (Hclear : forall e k, e = Pause \/ e = Reset ->
                   timer (fst (step random e s k)) = None).
  { intros e k [-> | ->]; simpl.
    - now apply pause_clears_timer.
    - reflexivity. }
  split; [|split].
  - intros e k ticks k' He. split.
    + now apply Hclear.
    + apply run_elapse_idle. now apply Hclear.
  - intros k. simpl. repeat split.
  - intros Ho ms k. simpl. apply elapse_idle. now apply over_no_timer.
Qed.


(** C8. A reset replaces the session: the board is that of a new game,
    the history and both capture lists are empty, the game is not active
    and no timer is pending; the state is the one the component started
    in. *)
Theorem reset_replaces_session (s : Session) (k : nat) :
  let s' := fst (step random Reset s k) in
  game (gameState s') = newChess /\
  gameHistory (gameState s') = [] /\
  white (capturedPieces (gameState s')) = [] /\
  black (capturedPieces (gameState s')) = [] /\
  isGameActive (gameState s') = false /\
  timer s' = None /\
  s' = mount.
Proof. simpl. repeat split. Qed.

(** C9, as the code has it.  A reset while a timer is pending clears the
    timer, so that the move it would have played is never applied however
    much time passes; the board that results is that of a new game, which
    is the board the timer was started on only when that board was itself
    the one of a new game. *)
Theorem reset_discards_pending_move (s : Session) (t : Timer) (k : nat) :
  timer s = Some t ->
  let s' := fst (step random Reset s k) in
  timer s' = None /\
  game (gameState s') = newChess /\
  (game (gameState s') = game (closure t) <-> game (closure t) = newChess) /\
  (forall (ticks : list Z) (k' : nat),
      run random (map Elapse ticks) s' k' = (s', k')).
Proof.
  intros _. simpl. repeat split; try congruence.
  intros ticks k'. now apply run_elapse_idle.
Qed.

(** C10. A reset sets the delay to 2000 milliseconds whatever it was,
    also right after a delay command. *)
Theorem reset_restores_default_delay (s : Session) (v : Z) (k : nat) :
  gameSpeed (gameState (fst (step random Reset s k))) = 2000%Z /\
  gameSpeed (gameState (fst (run random [SpeedChange v; Reset] s k))) = 2000%Z /\
  gameSpeed initialState = 2000%Z.
Proof. simpl. repeat split. Qed.

End Sessions.

(** * Further properties of the component *)

(** ** The policy and its draws *)

Lemma index_In {A : Type} (arr : list A) (i : Z) (x : A) :
  index arr i = Some x -> In x arr.
Proof.
  unfold index. destruct (i <? 0)%Z; [discriminate|]. apply nth_error_In.
Qed.

Section PolicyDraws.

Context {lib : ChessJs}.

Lemma pick_eval (random : nat -> Q) (arr : list string) (k : nat) :
  pick random arr k =
  (Normal (index arr (floorTimes (Double.ofQ (random k)) (length arr))), S k).
Proof. reflexivity. Qed.

(** The policy by cases, each case a single indexing. *)
Lemma generateAIMove_cases (random : nat -> Q) (g : Chess) (k : nat) :
  (moves g = [] /\ generateAIMove random g k = (Normal None, k)) \/
  (filter isCaptureMove (moves g) <> [] /\
   generateAIMove random g k = pick random (filter isCaptureMove (moves g)) k) \/
  (filter isCaptureMove (moves g) = [] /\
   filter isCenterMove (moves g) <> [] /\
   above07 (Double.ofQ (random k)) = true /\
   generateAIMove random g k =
   pick random (filter isCenterMove (moves g)) (S k)) \/
  (filter isCaptureMove (moves g) = [] /\
   filter isCenterMove (moves g) <> [] /\
   above07 (Double.ofQ (random k)) = false /\
   generateAIMove random g k = pick random (moves g) (S k)) \/
  (moves g <> [] /\ filter isCaptureMove (moves g) = [] /\
   filter isCenterMove (moves g) = [] /\
   generateAIMove random g k = pick random (moves g) k).
Proof.
  destruct (moves g) as [|m ms] eqn:Em.
  - left. split; [reflexivity|]. now apply generateAIMove_empty.
  - right. rewrite <- Em.
    destruct (filter isCaptureMove (moves g)) as [|c cs] eqn:Ec.
    + right.
      destruct (filter isCenterMove (moves g)) as [|z zs] eqn:Ez.
      * right. right. repeat split; try congruence.
        apply generateAIMove_all; congruence.
      * destruct (above07 (Double.ofQ (random k))) eqn:Hr.
        -- left. repeat split; try congruence. rewrite <- Ez.
           apply generateAIMove_center; congruence.
        -- right. left. repeat split; try congruence.
           apply generateAIMove_all_after_draw; congruence.
    + left. split; [congruence|]. rewrite <- Ec.
      apply generateAIMove_capture. congruence.
Qed.

(** Whatever the draws, a move returned by the policy is a legal move. *)
Lemma generateAIMove_legal (random : nat -> Q) (g : Chess) (k k' : nat)
  (mv : string) :
  generateAIMove random g k = (Normal (Some mv), k') -> In mv (moves g).
Proof.
  intros H.
  destruct (generateAIMove_cases random g k)
    as [[_ E]|[[_ E]|[[_ [_ [_ E]]]|[[_ [_ [_ E]]]|[_ [_ [_ E]]]]]]];
    rewrite E in H; try discriminate; rewrite pick_eval in H;
    injection H as H _; apply index_In in H;
    try (apply filter_In in H; tauto); exact H.
Qed.

(** X1.  The policy calls [Math.random] once or twice, never more, and no call
    at all on an empty move list; its result is the same under two
    sequences of draws that agree on these two calls. *)
Theorem policy_reads_two_draws (r1 r2 : nat -> Q) (g : Chess) (k : nat) :
  r1 k = r2 k -> r1 (S k) = r2 (S k) ->
  generateAIMove r1 g k = generateAIMove r2 g k /\
  (k <= snd (generateAIMove r1 g k) <= k + 2)%nat /\
  (moves g = [] <-> snd (generateAIMove r1 g k) = k).
Proof.
  intros E0 E1.
  destruct (generateAIMove_cases r1 g k)
    as [[Hm E]|[[Hc E]|[[Hc [Hz [Hr E]]]|[[Hc [Hz [Hr E]]]|[Hm [Hc [Hz E]]]]]]].
  - rewrite E, (generateAIMove_empty r2 g k Hm). simpl.
    repeat split; try lia; auto.
  - rewrite E, (generateAIMove_capture r2 g k Hc), !pick_eval, E0. simpl.
    repeat split; try lia.
    intros Hm. rewrite Hm in Hc. now elim Hc.
  - rewrite E. rewrite E0 in Hr.
    rewrite (generateAIMove_center r2 g k Hc Hz Hr), !pick_eval, E1. simpl.
    repeat split; try lia.
    intros Hm. rewrite Hm in Hz. now elim Hz.
  - rewrite E. rewrite E0 in Hr.
    rewrite (generateAIMove_all_after_draw r2 g k Hc Hz Hr), !pick_eval, E1.
    simpl. repeat split; try lia.
    intros Hm. rewrite Hm in Hz. now elim Hz.
  - rewrite E, (generateAIMove_all r2 g k Hm Hc Hz), !pick_eval, E0. simpl.
    repeat split; try lia. intros Hm'. contradiction.
Qed.

End PolicyDraws.

(** ** The timer callback and the events *)

Section SessionEvents.

Context {lib : ChessJs}.
Variable random : nat -> Q.

Lemma truthy_some (mv : option string) (text : string) :
  truthy mv = Some text -> mv = Some text /\ text <> "".
Proof.
  destruct mv as [t|]; simpl; [|discriminate].
  destruct (String.eqb t "") eqn:E; [discriminate|].
  intros H. injection H as <-. split; [reflexivity|].
  intros ->. discriminate.
Qed.

(** What a callback that calls the setter has done. *)
Lemma timerCallback_played (closure : GameState) (k k' : nat) (p : Played) :
  timerCallback random closure k = (Normal (Some p), k') ->
  In (playedMove p) (moves (load (fen (game closure)))) /\
  exists result,
    move (load (fen (game closure))) (playedMove p) =
      Normal (Some (newGame p, result)) /\
    newCapturedPieces p =
      match captured result with
      | Some piece =>
          pushCaptured (capturedPieces closure) (color result) piece
      | None => capturedPieces closure
      end.
Proof.
  unfold timerCallback, bind. intros H.
  destruct (generateAIMove random (load (fen (game closure))) k)
    as [[mv|err] k1] eqn:G; [|discriminate].
  destruct (truthy mv) as [text|] eqn:T; [|discriminate].
  apply truthy_some in T. destruct T as [-> _].
  apply generateAIMove_legal in G.
  unfold lift in H.
  destruct (move (load (fen (game closure))) text)
    as [[[moved result]|]|err] eqn:M; try discriminate.
  unfold ret in H. injection H as <- _. simpl.
  split; [exact G|]. exists result. split; [exact M | reflexivity].
Qed.

Lemma pushCaptured_length (c : Captured) (by_ : Color) (piece : string) :
  (length (white (pushCaptured c by_ piece)) +
   length (black (pushCaptured c by_ piece)) =
   S (length (white c) + length (black c)))%nat.
Proof.
  destruct by_; simpl; rewrite length_app; simpl; lia.
Qed.

Lemma pushCaptured_extends (c : Captured) (by_ : Color) (piece : string) :
  exists byWhite byBlack,
    white (pushCaptured c by_ piece) = (white c ++ byWhite)%list /\
    black (pushCaptured c by_ piece) = (black c ++ byBlack)%list /\
    (length byWhite + length byBlack = 1)%nat.
Proof.
  destruct by_; simpl.
  - exists [piece], []. now rewrite app_nil_r.
  - exists [], [piece]. now rewrite app_nil_r.
Qed.

(** The passing of time, by cases: no timer; a timer that keeps waiting; a
    timer that fires and plays a move; a timer that fires and plays none. *)
Lemma elapse_cases (ms : Z) (s : Session) (k : nat) :
  (timer s = None /\ elapse random ms s k = (s, k)) \/
  (exists t,
      timer s = Some t /\ (ms < remaining t)%Z /\
      elapse random ms s k =
      ({| gameState := gameState s;
          timer := Some {| remaining := remaining t - ms;
                           closure := closure t |} |}, k)) \/
  (exists t p k',
      timer s = Some t /\ (remaining t <= ms)%Z /\
      timerCallback random (closure t) k = (Normal (Some p), k') /\
      elapse random ms s k =
      ({| gameState := applyPlayed p (gameState s);
          timer := effect (applyPlayed p (gameState s)) |}, k')) \/
  (exists t k',
      timer s = Some t /\ (remaining t <= ms)%Z /\
      (forall p, fst (timerCallback random (closure t) k) <> Normal (Some p)) /\
      elapse random ms s k =
      ({| gameState := gameState s; timer := None |}, k')).
Proof.
  unfold elapse. destruct (timer s) as [t|] eqn:E; [right|left; auto].
  destruct (Z.ltb_spec ms (remaining t)) as [Hlt|Hge].
  - left. exists t. auto.
  - right.
    destruct (timerCallback random (closure t) k) as [[[p|]|err] k'] eqn:C.
    + left. exists t, p, k'. auto.
    + right. exists t, k'. repeat split; auto. intros p. rewrite C. simpl. discriminate.
    + right. exists t, k'. repeat split; auto. intros p. rewrite C. simpl. discriminate.
Qed.

(** A property kept by every allowed event is kept by every sequence of
    allowed events. *)
Lemma run_invariant (allowed : Event -> Prop) (P : Session -> Prop) :
  (forall e s k, allowed e -> P s -> P (fst (step random e s k))) ->
  forall es s k, Forall allowed es -> P s -> P (fst (run random es s k)).
Proof.
  intros Hstep es. induction es as [|e es IH]; intros s k Hall Hs; simpl.
  - exact Hs.
  - inversion Hall as [|e' es' He Hes]; subst.
    destruct (step random e s k) as [s1 k1] eqn:E.
    apply IH; [exact Hes|].
    change s1 with (fst (s1, k1)). rewrite <- E. now apply Hstep.
Qed.

Lemma Forall_all (es : list Event) : Forall (fun _ => True) es.
Proof. induction es; constructor; auto. Qed.

Lemma sameDeps_same (old new : GameState) :
  game new = game old -> isGameActive new = isGameActive old ->
  gameSpeed new = gameSpeed old -> sameDeps old new = true.
Proof.
  intros Hg Ha Hs. unfold sameDeps.
  now rewrite Hg, Ha, Hs, String.eqb_refl, Bool.eqb_reflx, Z.eqb_refl.
Qed.

(** X3.  Whatever the draws, a fired timer plays only a move that the library
    lists as legal in the position and that it accepted; the piece it
    reports as captured, if any, is added at the end of the list of the
    colour that moved, and the other list is as it was. *)
Theorem fired_timer_plays_listed_move (closure : GameState) (k k' : nat)
  (p : Played) :
  timerCallback random closure k = (Normal (Some p), k') ->
  In (playedMove p) (moves (load (fen (game closure)))) /\
  exists result,
    move (load (fen (game closure))) (playedMove p) =
      Normal (Some (newGame p, result)) /\
    (captured result = None ->
     newCapturedPieces p = capturedPieces closure) /\
    (forall piece, captured result = Some piece -> color result = w ->
       white (newCapturedPieces p) =
         (white (capturedPieces closure) ++ [piece])%list /\
       black (newCapturedPieces p) = black (capturedPieces closure)) /\
    (forall piece, captured result = Some piece -> color result = b ->
       black (newCapturedPieces p) =
         (black (capturedPieces closure) ++ [piece])%list /\
       white (newCapturedPieces p) = white (capturedPieces closure)).
Proof.
  intros H. destruct (timerCallback_played _ _ _ _ H) as [Hin [r [Hm Hc]]].
  split; [exact Hin|]. exists r. split; [exact Hm|].
  repeat split; intros; rewrite Hc.
  - now rewrite H0.
  - now rewrite H0, H1.
  - now rewrite H0, H1.
  - now rewrite H0, H1.
  - now rewrite H0, H1.
Qed.

Lemma extends_refl (s s' : Session) :
  gameHistory (gameState s') = gameHistory (gameState s) ->
  capturedPieces (gameState s') = capturedPieces (gameState s) ->
  extends s s'.
Proof.
  intros Hh Hc. exists [], [], []. rewrite Hh, Hc, !app_nil_r. auto.
Qed.

Lemma extends_trans (s1 s2 s3 : Session) :
  extends s1 s2 -> extends s2 s3 -> extends s1 s3.
Proof.
  intros [m1 [w1 [b1 [Hh1 [Hw1 [Hb1 Hl1]]]]]]
         [m2 [w2 [b2 [Hh2 [Hw2 [Hb2 Hl2]]]]]].
  exists (m1 ++ m2)%list, (w1 ++ w2)%list, (b1 ++ b2)%list.
  rewrite Hh2, Hw2, Hb2, Hh1, Hw1, Hb1, <- !app_assoc, !length_app.
  repeat split. lia.
Qed.

Lemma step_extends (e : Event) (s : Session) (k : nat) :
  wellFormed s -> e <> Reset -> extends s (fst (step random e s k)).
Proof.
  intros W He. destruct e as [| | |v|ms]; try (now apply extends_refl).
  simpl.
  destruct (elapse_cases ms s k)
    as [[_ E]|[[t [_ [_ E]]]|[[t [p [k' [Ht [_ [C E]]]]]]|[t [k' [_ [_ [_ E]]]]]]]];
    rewrite E; try (now apply extends_refl).
  destruct (wellFormed_active s t W Ht) as [Hcl _].
  destruct (timerCallback_played _ _ _ _ C) as [_ [r [_ Hc]]].
  rewrite Hcl in Hc. unfold extends. simpl. rewrite Hc.
  destruct (captured r) as [piece|].
  - destruct (pushCaptured_extends (capturedPieces (gameState s))
                (color r) piece) as [bw [bb [Hw [Hb Hl]]]].
    exists [playedMove p], bw, bb. simpl. repeat split; auto. lia.
  - exists [playedMove p], [], []. rewrite !app_nil_r. simpl.
    repeat split; auto.
Qed.

(** X5.  Short of a reset, nothing is ever taken back: along any sequence of
    commands and elapsed times without a reset, the history and the two
    capture lists only receive new entries at their end, and no more
    pieces than moves. *)
Theorem history_and_captures_only_grow (es : list Event) (s : Session)
  (k : nat) :
  wellFormed s -> ~ In Reset es ->
  extends s (fst (run random es s k)).
Proof.
  revert s k. induction es as [|e es IH]; intros s k W Hno; simpl.
  - now apply extends_refl.
  - destruct (step random e s k) as [s1 k1] eqn:E.
    assert (He : e <> Reset) by (intros ->; apply Hno; now left).
    assert (H1 : extends s s1).
    { change s1 with (fst (s1, k1)). rewrite <- E. now apply step_extends. }
    assert (W1 : wellFormed s1).
    { change s1 with (fst (s1, k1)). rewrite <- E. now apply step_wellFormed. }
    apply extends_trans with s1; [exact H1|].
    apply IH; [exact W1|]. intros Hin. apply Hno. now right.
Qed.

End SessionEvents.

Section SessionInvariants.

Context {lib : ChessJs}.
Variable random : nat -> Q.

(** X4.  In every session the component can reach, a pending timer belongs to
    the game as it is now: its callback closed over the current state, the
    game is active and it is not over.  No timer outlives the state it was
    set for. *)
Theorem pending_timer_is_current (es : list Event) (k : nat) (t : Timer) :
  timer (fst (run random es mount k)) = Some t ->
  closure t = gameState (fst (run random es mount k)) /\
  isGameActive (gameState (fst (run random es mount k))) = true /\
  isGameOver (game (gameState (fst (run random es mount k)))) = false.
Proof.
  intros Ht. apply wellFormed_active; [|exact Ht].
  apply run_wellFormed. apply effect_wellFormed.
Qed.

Lemma step_capturesWithinMoves (e : Event) (s : Session) (k : nat) :
  wellFormed s /\ capturesWithinMoves s ->
  wellFormed (fst (step random e s k)) /\
  capturesWithinMoves (fst (step random e s k)).
Proof.
  intros [W H]. split; [now apply step_wellFormed|].
  destruct e as [| | |v|ms]; try exact H.
  - unfold capturesWithinMoves. simpl. lia.
  - destruct (step_extends random (Elapse ms) s k W)
      as [m [bw [bb [Hh [Hw [Hb Hl]]]]]]; [discriminate|].
    unfold capturesWithinMoves in *. rewrite Hh, Hw, Hb, !length_app. lia.
Qed.

(** X6.  In every session that the component can reach, the two capture lists
    together hold no more pieces than the history holds moves. *)
Theorem captures_never_outnumber_moves (es : list Event) (k : nat) :
  capturesWithinMoves (fst (run random es mount k)).
Proof.
  apply (run_invariant random (fun _ => True)
           (fun s => wellFormed s /\ capturesWithinMoves s)).
  - intros e s k0 _. apply step_capturesWithinMoves.
  - apply Forall_all.
  - split; [apply effect_wellFormed|]. unfold capturesWithinMoves. simpl. lia.
Qed.

Lemma step_showsSideToMove (e : Event) (s : Session) (k : nat) :
  turn newChess = w -> showsSideToMove s ->
  showsSideToMove (fst (step random e s k)).
Proof.
  intros Hw H. destruct e as [| | |v|ms]; try exact H.
  - unfold showsSideToMove. simpl. now rewrite Hw.
  - simpl.
    destruct (elapse_cases random ms s k)
      as [[_ E]|[[t [_ [_ E]]]|[[t [p [k' [_ [_ [_ E]]]]]]|[t [k' [_ [_ [_ E]]]]]]]];
      rewrite E; try exact H.
    reflexivity.
Qed.

(** X7.  Provided a new game of the library has White to move, in every
    session that the component can reach the player shown as to move is
    the side that the library says is to move. *)
Theorem shown_player_is_side_to_move (es : list Event) (k : nat) :
  turn newChess = w ->
  showsSideToMove (fst (run random es mount k)).
Proof.
  intros Hw.
  apply (run_invariant random (fun _ => True) showsSideToMove).
  - intros e s k0 _. now apply step_showsSideToMove.
  - apply Forall_all.
  - unfold showsSideToMove. simpl. now rewrite Hw.
Qed.

(** X8.  The board, the history and the capture lists change only on a reset
    or when a pending timer has run out: no start, pause or delay command,
    and no time short of the delay, ever touches them. *)
Theorem game_changes_only_by_timer_or_reset (e : Event) (s : Session)
  (k : nat) :
  game (gameState (fst (step random e s k))) <> game (gameState s) \/
  gameHistory (gameState (fst (step random e s k))) <>
    gameHistory (gameState s) \/
  capturedPieces (gameState (fst (step random e s k))) <>
    capturedPieces (gameState s) ->
  e = Reset \/
  exists ms t, e = Elapse ms /\ timer s = Some t /\ (remaining t <= ms)%Z.
Proof.
  intros H. destruct e as [| | |v|ms]; simpl in H;
    try (exfalso; intuition congruence).
  - now left.
  - right.
    destruct (elapse_cases random ms s k)
      as [[_ E]|[[t [_ [_ E]]]|[[t [p [k' [Ht [Hge _]]]]]|[t [k' [Ht [Hge _]]]]]]];
      try (rewrite E in H; simpl in H; exfalso; intuition congruence);
      exists ms, t; auto.
Qed.

Lemma step_elapse_keeps_settings (ms : Z) (s : Session) (k : nat) :
  isGameActive (gameState (fst (elapse random ms s k))) =
    isGameActive (gameState s) /\
  gameSpeed (gameState (fst (elapse random ms s k))) = gameSpeed (gameState s).
Proof.
  destruct (elapse_cases random ms s k)
    as [[_ E]|[[t [_ [_ E]]]|[[t [p [k' [_ [_ [_ E]]]]]]|[t [k' [_ [_ [_ E]]]]]]]];
    rewrite E; auto.
Qed.

(** X9.  The passing of time never changes the active flag or the delay: a
    game that the timer plays to its end is still flagged active, and only
    a command stops it or retimes it. *)
Theorem time_keeps_flag_and_delay (ticks : list Z) (s : Session) (k : nat) :
  isGameActive (gameState (fst (run random (map Elapse ticks) s k))) =
    isGameActive (gameState s) /\
  gameSpeed (gameState (fst (run random (map Elapse ticks) s k))) =
    gameSpeed (gameState s).
Proof.
  revert s k. induction ticks as [|ms ticks IH]; intros s k; simpl.
  - auto.
  - destruct (elapse random ms s k) as [s1 k1] eqn:E.
    destruct (IH s1 k1) as [Ha Hs]. rewrite Ha, Hs.
    change s1 with (fst (s1, k1)). rewrite <- E.
    apply step_elapse_keeps_settings.
Qed.

(** X10.  Moving the slider during play starts the countdown again with the new
    delay; setting the delay to the value it has leaves the session,
    pending timer and time left included, as it is. *)
Theorem speed_change_restarts_countdown (s : Session) (v : Z) (k : nat) :
  isGameActive (gameState s) = true ->
  isGameOver (game (gameState s)) = false ->
  v <> gameSpeed (gameState s) ->
  timer (fst (step random (SpeedChange v) s k)) =
    Some {| remaining := v; closure := handleSpeedChange v (gameState s) |} /\
  step random (SpeedChange (gameSpeed (gameState s))) s k = (s, k).
Proof.
  intros Ha Ho Hv. split.
  - simpl. unfold setGameState. simpl.
    assert (D : sameDeps (gameState s) (handleSpeedChange v (gameState s))
                = false).
    { unfold sameDeps. simpl.
      destruct (Z.eqb_spec (gameSpeed (gameState s)) v) as [E|_];
        [congruence | apply andb_false_r]. }
    rewrite D. now apply effect_playing.
  - simpl. unfold setGameState. simpl.
    rewrite sameDeps_same by reflexivity.
    destruct s as [gs t]. destruct gs. reflexivity.
Qed.

(** X11.  Each command done twice in a row is the command done once: a second
    start, pause, reset or equal delay neither changes the state nor
    restarts or removes the pending timer. *)
Theorem commands_are_idempotent (s : Session) (v : Z) (k k' : nat) :
  fst (step random Start (fst (step random Start s k)) k') =
    fst (step random Start s k) /\
  fst (step random Pause (fst (step random Pause s k)) k') =
    fst (step random Pause s k) /\
  fst (step random Reset (fst (step random Reset s k)) k') =
    fst (step random Reset s k) /\
  fst (step random (SpeedChange v) (fst (step random (SpeedChange v) s k)) k') =
    fst (step random (SpeedChange v) s k).
Proof.
  repeat split; simpl; unfold setGameState at 1; simpl;
    try (rewrite sameDeps_same by reflexivity); reflexivity.
Qed.

(** X12.  The timer never goes missing.  Let the library give a move in every
    position that is not over, and accept every move it lists, none of
    them the empty text; let the draws lie between 0 and 1.  Then in every
    session the component can reach, an active game that is not over has
    a timer pending. *)
Theorem active_game_never_stalls (es : list Event) (k : nat) :
  (forall n, 0 <= random n < 1) ->
  (forall g, isGameOver g = false -> moves (load (fen g)) <> []) ->
  (forall g mv, In mv (moves g) ->
     mv <> "" /\ exists g' result, move g mv = Normal (Some (g', result))) ->
  let s := fst (run random es mount k) in
  isGameActive (gameState s) = true ->
  isGameOver (game (gameState s)) = false ->
  timer s <> None.
Proof.
  intros Hr Hmoves Hmove.
  set (P := fun s : Session =>
              wellFormed s /\
              (isGameActive (gameState s) = true ->
               isGameOver (game (gameState s)) = false -> timer s <> None)).
  assert (Heff : forall gs, P {| gameState := gs; timer := effect gs |}).
  { intros gs. split; [apply effect_wellFormed|]. simpl. intros Ha Ho.
    rewrite effect_playing by assumption. discriminate. }
  assert (Hcmd : forall f s,
             P s ->
             (forall gs, game (f gs) = game gs) ->
             (forall gs, sameDeps gs (f gs) = true -> f gs = gs) ->
             P (setGameState true f s)).
  { intros f s [W L] Hg Hf. unfold setGameState. simpl.
    destruct (sameDeps (gameState s) (f (gameState s))) eqn:D.
    - rewrite (Hf _ D). destruct s. exact (conj W L).
    - apply Heff. }
  enough (HP : P (fst (run random es mount k))) by (apply HP).
  apply (run_invariant random (fun _ => True) P).
  - intros e s k0 _ HPs. destruct e as [| | |v|ms]; simpl.
    + apply Hcmd; [exact HPs | reflexivity|]. intros gs D.
      apply sameDeps_active in D. simpl in D. destruct gs; simpl in *.
      now subst.
    + apply Hcmd; [exact HPs | reflexivity|]. intros gs D.
      apply sameDeps_active in D. simpl in D. destruct gs; simpl in *.
      now subst.
    + apply Heff.
    + apply Hcmd; [exact HPs | reflexivity|]. intros gs D.
      apply sameDeps_speed in D. simpl in D. destruct gs; simpl in *.
      now subst.
    + destruct HPs as [W L].
      destruct (elapse_cases random ms s k0)
        as [[_ E]|[[t [Ht [_ E]]]|[[t [p [k' [_ [_ [_ E]]]]]]|[t [k' [Ht [_ [Hno E]]]]]]]];
        rewrite E; simpl.
      * exact (conj W L).
      * split.
        -- unfold wellFormed. simpl. exact (wellFormed_active s t W Ht).
        -- simpl. intros _ _. discriminate.
      * apply Heff.
      * exfalso.
        destruct (wellFormed_active s t W Ht) as [Hcl [_ Ho]].
        pose proof (Hmoves _ Ho) as Hne. rewrite <- Hcl in Hne.
        destruct (generateAIMove_cases random
                    (load (fen (game (closure t)))) k0)
          as [[Hm _]|Hcases]; [contradiction|].
        assert (Hsome : exists mv k1,
                   generateAIMove random (load (fen (game (closure t)))) k0 =
                   (Normal (Some mv), k1)).
        { destruct Hcases
            as [[Hc G]|[[_ [Hz [_ G]]]|[[_ [_ [_ G]]]|[_ [_ [_ G]]]]]];
            rewrite G;
            match goal with
            | |- context [pick random ?arr ?n] =>
                assert (Hn : arr <> []) by assumption;
                destruct (pick_spec random Hr arr n Hn) as [i [mv [Hp _]]];
                exists mv, (S n); exact Hp
            end. }
        destruct Hsome as [mv [k1 G]].
        pose proof (generateAIMove_legal random _ _ _ _ G) as Hin.
        destruct (Hmove _ _ Hin) as [Hnz [g' [result M]]].
        apply (Hno {| newGame := g'; playedMove := mv;
                      newCapturedPieces :=
                        match captured result with
                        | Some piece =>
                            pushCaptured (capturedPieces (closure t))
                              (color result) piece
                        | None => capturedPieces (closure t)
                        end |}).
        unfold timerCallback, bind. rewrite G. simpl.
        destruct (String.eqb mv "") eqn:Ee;
          [apply String.eqb_eq in Ee; contradiction|].
        unfold lift. now rewrite M.
  - apply Forall_all.
  - apply Heff.
Qed.

End SessionInvariants.

(** ** What the page shows *)

Lemma sumValues_app (pieces : list string) (piece : string) :
  sumValues (pieces ++ [piece]) =
  match sumValues pieces, PIECE_VALUES piece with
  | Some a, Some v => Some (a + v)%Z
  | _, _ => None
  end.
Proof. unfold sumValues. now rewrite fold_left_app. Qed.

Lemma PIECE_VALUES_bounds (piece : string) (v : Z) :
  PIECE_VALUES piece = Some v -> (0 <= v <= 9)%Z.
Proof.
  unfold PIECE_VALUES.
  repeat match goal with
         | |- context [String.eqb ?a ?b] => destruct (String.eqb a b)
         end; intros H; inversion H; lia.
Qed.

(** X18.  The rows of the move list carry distinct labels: two rows with the
    same number and the same mark are the same row; a number is shared by
    the two rows of one full move, the first unmarked and the second
    marked. *)
Theorem move_labels_are_distinct (i j : nat) :
  moveNumber i = moveNumber j -> moveMark i = moveMark j ->
  i = j /\
  moveNumber (2 * i) = S i /\ moveMark (2 * i) = "" /\
  moveNumber (2 * i + 1) = S i /\ moveMark (2 * i + 1) = "..".
Proof.
  unfold moveNumber, moveMark. intros Hn Hm.
  assert (Hi := Nat.div_mod_eq i 2). assert (Hj := Nat.div_mod_eq j 2).
  assert (Bi := Nat.mod_upper_bound i 2). assert (Bj := Nat.mod_upper_bound j 2).
  assert (Hmod : (i mod 2 = j mod 2)%nat).
  { destruct (Nat.eqb_spec (i mod 2) 0), (Nat.eqb_spec (j mod 2) 0);
      try discriminate; lia. }
  split; [lia|].
  replace (2 * i + 1)%nat with (1 + i * 2)%nat by lia.
  replace (2 * i)%nat with (i * 2)%nat by lia.
  rewrite Nat.div_add, Nat.Div0.mod_add, Nat.div_mul, Nat.Div0.mod_mul by lia.
  simpl. repeat split; lia.
Qed.

(** X15.  Turning the board puts the same 64 squares in the reverse order: each
    orientation shows eight rows of eight cells, every square once, and
    the square shown at a place is the one the other orientation shows at
    the place opposite. *)
Theorem flipped_board_is_reversed (boardOrientation : Player) :
  map square (concat (boardCells (flipBoard boardOrientation))) =
    rev (map square (concat (boardCells boardOrientation))) /\
  NoDup (map square (concat (boardCells boardOrientation))) /\
  length (boardCells boardOrientation) = 8%nat /\
  Forall (fun row => length row = 8%nat) (boardCells boardOrientation).
Proof.
  assert (HW : NoDup (map square (concat (boardCells White)))).
  { apply (NoDup_map_inv (fun sq => sq)). rewrite map_id.
    vm_compute. repeat (constructor; [simpl; intuition discriminate|]).
    constructor. }
  assert (HR : map square (concat (boardCells Black)) =
               rev (map square (concat (boardCells White))))
    by reflexivity.
  destruct boardOrientation; simpl flipBoard.
  - split; [exact HR|]. split; [exact HW|]. split; [reflexivity|].
    vm_compute. repeat constructor.
  - split; [now rewrite HR, rev_involutive|].
    split; [rewrite HR; now apply NoDup_rev|]. split; [reflexivity|].
    vm_compute. repeat constructor.
Qed.

(** X16.  A square has the shade of the chessboard whichever way the board is
    turned: in both orientations every cell is light exactly when its
    square is a light square, so that a1 and h8 are dark and h1 and a8
    light. *)
Theorem shade_follows_the_square (boardOrientation : Player) :
  Forall (fun c => isLight c = lightByName (square c))
         (concat (boardCells boardOrientation)).
Proof.
  apply Forall_forall. intros c Hin.
  apply Bool.eqb_prop. revert c Hin.
  apply (proj1 (forallb_forall
                  (fun c => Bool.eqb (isLight c) (lightByName (square c)))
                  (concat (boardCells boardOrientation)))).
  destruct boardOrientation; vm_compute; reflexivity.
Qed.

(** X17.  Whichever way the board is turned, each rank is written once, down
    the left column, and each file once, along the bottom row, in the
    order in which they are displayed. *)
Theorem every_rank_and_file_is_labelled (boardOrientation : Player) :
  map (fun c => String.substring 1 1 (square c))
      (filter showsRank (concat (boardCells boardOrientation))) =
    displayRanks boardOrientation /\
  map (fun c => String.substring 0 1 (square c))
      (filter showsFile (concat (boardCells boardOrientation))) =
    displayFiles boardOrientation /\
  map (fun row => map showsRank row) (boardCells boardOrientation) =
    repeat (true :: repeat false 7) 8 /\
  map (fun row => map showsFile row) (boardCells boardOrientation) =
    (repeat (repeat false 8) 7 ++ [repeat true 8])%list.
Proof.
  destruct boardOrientation; repeat split; reflexivity.
Qed.

Section Status.

Context {lib : ChessJs}.
Variable random : nat -> Q.
Variables isCheckmate isDraw isCheck : Chess -> bool.

(** X13.  A capture moves the material advantage by the value of the piece
    taken, up for White and down for Black, and by 9 at most. *)
Theorem capture_shifts_material_advantage (gs gs' : GameState)
  (by_ : Color) (piece : string) (value a : Z) :
  capturedPieces gs' = pushCaptured (capturedPieces gs) by_ piece ->
  PIECE_VALUES piece = Some value ->
  calculateMaterialAdvantage gs = Some a ->
  calculateMaterialAdvantage gs' =
    Some (match by_ with w => a + value | b => a - value end)%Z /\
  (0 <= value <= 9)%Z.
Proof.
  unfold calculateMaterialAdvantage. intros Hc Hv Ha.
  split; [|now apply PIECE_VALUES_bounds with piece].
  rewrite Hc.
  destruct (sumValues (white (capturedPieces gs))) as [x|] eqn:Ew;
    [|discriminate].
  destruct (sumValues (black (capturedPieces gs))) as [y|] eqn:Eb;
    [|discriminate].
  injection Ha as <-.
  destruct by_; simpl; rewrite sumValues_app, ?Ew, ?Eb, Hv;
    f_equal; lia.
Qed.

Lemma step_materialWithinMoves (e : Event) (s : Session) (k : nat) :
  (forall g mv g' result piece,
     move g mv = Normal (Some (g', result)) ->
     captured result = Some piece -> PIECE_VALUES piece <> None) ->
  wellFormed s /\ materialWithinMoves s ->
  wellFormed (fst (step random e s k)) /\
  materialWithinMoves (fst (step random e s k)).
Proof.
  intros Hkinds [W H]. split; [now apply step_wellFormed|].
  destruct e as [| | |v|ms]; try exact H.
  - exists 0%Z, 0%Z. simpl. repeat split; try reflexivity; lia.
  - simpl.
    destruct (elapse_cases random ms s k)
      as [[_ E]|[[t [_ [_ E]]]|[[t [p [k' [Ht [_ [C E]]]]]]|[t [k' [_ [_ [_ E]]]]]]]];
      rewrite E; try exact H.
    destruct (wellFormed_active s t W Ht) as [Hcl _].
    destruct (timerCallback_played random _ _ _ _ C) as [_ [r [Hm Hc]]].
    rewrite Hcl in Hc.
    destruct H as [x [y [Hx [Hy [Hx0 [Hy0 Hsum]]]]]].
    unfold materialWithinMoves. simpl. rewrite Hc, length_app. simpl.
    destruct (captured r) as [piece|] eqn:Ecap.
    + destruct (PIECE_VALUES piece) as [v|] eqn:Ev;
        [|now elim (Hkinds _ _ _ _ _ Hm Ecap)].
      pose proof (PIECE_VALUES_bounds _ _ Ev) as Hb.
      destruct (color r); simpl; rewrite sumValues_app, ?Hx, ?Hy, Ev.
      * exists (x + v)%Z, y. repeat split; auto; lia.
      * exists x, (y + v)%Z. repeat split; auto; lia.
    + exists x, y. repeat split; auto; lia.
Qed.

(** X14.  Provided the library reports as captured only pieces of the table of
    values, in every session the component can reach the material
    advantage is a number, and it is at most nine times the number of
    moves played, to either side. *)
Theorem material_advantage_is_bounded (es : list Event) (k : nat) :
  (forall g mv g' result piece,
     move g mv = Normal (Some (g', result)) ->
     captured result = Some piece -> PIECE_VALUES piece <> None) ->
  let gs := gameState (fst (run random es mount k)) in
  exists a,
    calculateMaterialAdvantage gs = Some a /\
    (Z.abs a <= 9 * Z.of_nat (length (gameHistory gs)))%Z.
Proof.
  intros Hkinds gs.
  assert (H : wellFormed (fst (run random es mount k)) /\
              materialWithinMoves (fst (run random es mount k))).
  { apply (run_invariant random (fun _ => True)
             (fun s => wellFormed s /\ materialWithinMoves s)).
    - intros e s k0 _. now apply step_materialWithinMoves.
    - apply Forall_all.
    - split; [apply effect_wellFormed|].
      exists 0%Z, 0%Z. simpl. repeat split; try reflexivity; lia. }
  destruct H as [_ [x [y [Hx [Hy [Hx0 [Hy0 Hsum]]]]]]].
  exists (x - y)%Z. unfold calculateMaterialAdvantage. fold gs in Hx, Hy, Hsum.
  rewrite Hx, Hy. split; [reflexivity | lia].
Qed.

(** X19.  Provided a new game of the library has White to move, in every
    session the component can reach the status line agrees with the
    player shown as to move: on checkmate it names the other player as
    the winner, and on a game that is neither mate nor draw it names the
    side that the library says is to move. *)
Theorem status_line_names_the_right_player (es : list Event) (k : nat) :
  turn newChess = w ->
  let gs := gameState (fst (run random es mount k)) in
  (isCheckmate (game gs) = true ->
   getGameStatus isCheckmate isDraw isCheck gs =
   ("Checkmate! " ++
    playerName (match currentPlayer gs with White => Black | Black => White end)
    ++ " wins!")%string) /\
  (isCheckmate (game gs) = false -> isDraw (game gs) = true ->
   getGameStatus isCheckmate isDraw isCheck gs = "Game ended in a draw!") /\
  (isCheckmate (game gs) = false -> isDraw (game gs) = false ->
   getGameStatus isCheckmate isDraw isCheck gs =
   (playerName (match turn (game gs) with w => White | b => Black end) ++
    (if isCheck (game gs) then " is in check!" else " to move"))%string).
Proof.
  intros Hw gs.
  assert (H : showsSideToMove (fst (run random es mount k))).
  { apply (run_invariant random (fun _ => True) showsSideToMove).
    - intros e s k0 _. now apply step_showsSideToMove.
    - apply Forall_all.
    - unfold showsSideToMove. simpl. now rewrite Hw. }
  unfold showsSideToMove in H. fold gs in H.
  unfold getGameStatus. repeat split.
  - intros Hm. rewrite Hm, H. now destruct (turn (game gs)).
  - intros Hm Hd. now rewrite Hm, Hd.
  - intros Hm Hd. rewrite Hm, Hd, H. now destruct (isCheck (game gs)).
Qed.

End Status.

(** * Examples *)

(** ** Examples on the excerpt of chess.js *)

Import Excerpt.

Lemma draws_range (first later : Q) :
  0 <= first < 1 -> 0 <= later < 1 -> forall k, 0 <= draws first later k < 1.
Proof. intros H1 H2 [|k]; assumption. Qed.

Lemma generateAIMove_member_witness :
  exists mv k',
    generateAIMove (draws (4 # 5) (1 # 2)) (position startFen) 0%nat =
      (Normal (Some mv), k') /\
    In mv (moves (position startFen)).
Proof.
  apply (generateAIMove_member (lib := chess) (draws (4 # 5) (1 # 2))).
  - intros [|k]; split; vm_compute; first [reflexivity | discriminate].
  - vm_compute. discriminate.
Defined.

Lemma empty_move_set_returns_null_witness :
  let mated :=
    {| game := position foolsMateFen; gameHistory := ["f3"; "e5"; "g4"; "Qh4#"];
       isGameActive := true; currentPlayer := White; gameSpeed := 2000;
       capturedPieces := {| white := []; black := [] |} |} in
  generateAIMove (draws 0 0) (load (fen (game mated))) 0%nat =
    (Normal None, 0%nat) /\
  timerCallback (draws 0 0) mated 0%nat = (Normal None, 0%nat).
Proof.
  intros mated.
  apply (empty_move_set_returns_null (lib := chess) (draws 0 0) mated 0%nat).
  reflexivity.
Defined.

(** From the starting position, with a tier draw of 4/5, the move comes
    from the center tier d4, e4. *)
Lemma center_tier_by_text_witness :
  exists i mv,
    generateAIMove (draws (4 # 5) (1 # 2)) (position startFen) 0%nat =
      (Normal (Some mv), 2%nat) /\
    nth_error (filter isCenterMove (moves (position startFen))) i = Some mv /\
    floorTimes (Double.ofQ (draws (4 # 5) (1 # 2) 1%nat))
               (length (filter isCenterMove (moves (position startFen)))) =
      Z.of_nat i.
Proof.
  refine (proj1 (center_tier_by_text (lib := chess) (draws (4 # 5) (1 # 2))
                   _ (position startFen) 0%nat _ _) _ _).
  - intros [|k]; split; vm_compute; first [reflexivity | discriminate].
  - vm_compute. discriminate.
  - intros mv Hin. apply negb_true_iff. revert mv Hin.
    apply (proj1 (forallb_forall (fun mv => negb (isCaptureMove mv))
                    (moves (position startFen)))).
    vm_compute. reflexivity.
  - vm_compute. discriminate.
  - vm_compute. reflexivity.
Defined.

(** A game is started, half a second passes, the game is paused: five
    seconds later the session is as the pause left it. *)
Lemma cancelled_tick_applies_nothing_witness :
  let s := fst (run (draws (4 # 5) (1 # 2)) [Start; Elapse 500] mount 0%nat) in
  let s' := fst (step (draws (4 # 5) (1 # 2)) Pause s 0%nat) in
  wellFormed s /\
  timer s = Some {| remaining := 1500; closure := startGame initialState |} /\
  timer s' = None /\
  run (draws (4 # 5) (1 # 2)) (map Elapse [5000%Z]) s' 0%nat = (s', 0%nat).
Proof.
  intros s s'.
  assert (W : wellFormed s) by (vm_compute; repeat split).
  split; [exact W|]. split; [reflexivity|].
  exact (proj1 (cancelled_tick_applies_nothing (lib := chess)
                  (draws (4 # 5) (1 # 2)) s W)
               Pause 0%nat [5000%Z] 0%nat (or_introl eq_refl)).
Defined.

(** A game is started and 1.e4 is played; a reset during the next delay
    clears the timer. *)
Lemma reset_discards_pending_move_witness :
  let s := fst (run (draws (4 # 5) (1 # 2)) [Start; Elapse 2000] mount 0%nat) in
  let s' := fst (step (draws (4 # 5) (1 # 2)) Reset s 2%nat) in
  timer s = Some {| remaining := 2000; closure := gameState s |} /\
  timer s' = None /\
  game (gameState s') = position startFen.
Proof.
  intros s s'. split; [reflexivity|].
  destruct (reset_discards_pending_move (lib := chess)
              (draws (4 # 5) (1 # 2)) s
              {| remaining := 2000; closure := gameState s |} 2%nat eq_refl)
    as [H1 [H2 _]].
  split; [exact H1 | exact H2].
Defined.

(** C3 fails as stated: the delay command stores 100, below the range. *)
Lemma handleSpeedChange_counterexample :
  let s' := fst (step (draws 0 0) (SpeedChange 100) mount 0%nat) in
  gameSpeed (gameState s') = 100%Z /\
  ~ (500 <= gameSpeed (gameState s') <= 5000)%Z.
Proof. simpl. split; [reflexivity | lia]. Qed.

(** C4 fails as stated: on the mated position the policy does not throw,
    it returns [null], and the timer callback goes on to end normally. *)
Lemma empty_move_set_counterexample :
  let mated :=
    {| game := position foolsMateFen; gameHistory := ["f3"; "e5"; "g4"; "Qh4#"];
       isGameActive := true; currentPlayer := White; gameSpeed := 2000;
       capturedPieces := {| white := []; black := [] |} |} in
  moves (position foolsMateFen) = [] /\
  generateAIMove (draws 0 0) (position foolsMateFen) 0%nat = (Normal None, 0%nat) /\
  (forall e, fst (generateAIMove (draws 0 0) (position foolsMateFen) 0%nat) <> Throw e) /\
  (forall e, fst (timerCallback (draws 0 0) mated 0%nat) <> Throw e).
Proof. simpl. repeat split; discriminate. Qed.

(** C5.  The source takes for a center move any move whose text contains
    the name of a center square, and so also a move written with its full
    origin that leaves one.  With three knights that reach c3, no move is a
    capture, Nd4 goes to a center square, the tier draw is above 7/10, and
    the move returned from the center tier is Ne4c3, which goes to c3. *)
Lemma center_tier_departing_move :
  (forall mv, In mv (moves (position threeKnightsFen)) -> isCaptureMove mv = false) /\
  (In "Nd4" (moves (position threeKnightsFen)) /\ San.goesToCenter "Nd4" = true) /\
  7 # 10 < draws (4 # 5) 0 0%nat /\
  filter isCenterMove (moves (position threeKnightsFen)) = ["Ne4c3"; "Nd4"] /\
  generateAIMove (draws (4 # 5) 0) (position threeKnightsFen) 0%nat =
    (Normal (Some "Ne4c3"), 2%nat) /\
  San.destination "Ne4c3" = Some "c3" /\
  San.goesToCenter "Ne4c3" = false.
Proof.
  split.
  - intros mv Hin. apply negb_true_iff. revert mv Hin.
    apply (proj1 (forallb_forall (fun mv => negb (isCaptureMove mv))
                    (moves (position threeKnightsFen)))).
    vm_compute. reflexivity.
  - repeat split; try reflexivity. vm_compute. tauto.
Qed.

(** C9 fails as stated: after 1.e4 a timer is pending on the board with
    the pawn on e4; the reset gives the starting position, not that
    board. *)
Lemma reset_board_counterexample :
  let s := fst (run (draws (4 # 5) (1 # 2)) [Start; Elapse 2000] mount 0%nat) in
  let s' := fst (step (draws (4 # 5) (1 # 2)) Reset s 2%nat) in
  timer s = Some {| remaining := 2000; closure := gameState s |} /\
  wellFormed s /\
  gameHistory (gameState s) = ["e4"] /\
  game (gameState s) =
    "rnbqkbnr/pppppppp/8/8/4P3/8/PPPP1PPP/RNBQKBNR b KQkq - 0 1" /\
  game (gameState s') = position startFen /\
  game (gameState s') <> game (gameState s).
Proof.
  intros s s'.
  split; [reflexivity|].
  split; [vm_compute; repeat split|].
  split; [reflexivity|].
  split; [reflexivity|].
  split; [reflexivity|].
  vm_compute. discriminate.
Qed.

(** ** Examples of the further properties *)

Lemma lookup_listed {A : Type} (key : string) (l : list (string * A)) :
  In key (map fst l) -> exists v, lookup key l = Some v.
Proof.
  induction l as [|[k0 v0] l IH]; simpl; [easy|].
  intros [->|H].
  - rewrite String.eqb_refl. now exists v0.
  - destruct (String.eqb k0 key); [now exists v0 | now apply IH].
Qed.

Lemma lookup_entry {A : Type} (key : string) (l : list (string * A)) (v : A) :
  lookup key l = Some v -> exists k0, In (k0, v) l.
Proof.
  induction l as [|[k0 v0] l IH]; simpl; [discriminate|].
  destruct (String.eqb k0 key).
  - intros H. injection H as <-. exists k0. now left.
  - intros H. destruct (IH H) as [k1 H1]. exists k1. now right.
Qed.

(** Every entry of the tables has a move with a text and reports no
    captured piece other than a pawn. *)
Lemma table_entries (position : string) (san : string) (next : string)
  (result : MoveResult) :
  In (san, (next, result)) (table position) ->
  san <> "" /\ (captured result = None \/ captured result = Some "p").
Proof.
  intros H.
  assert (Hall : forallb
            (fun e : string * (string * MoveResult) =>
               negb (String.eqb (fst e) "") &&
               match captured (snd (snd e)) with
               | None => true
               | Some piece => String.eqb piece "p"
               end) (table position) = true).
  { unfold table.
    destruct (String.eqb position startFen); [vm_compute; reflexivity|].
    destruct (String.eqb position pawnEndingFen); [vm_compute; reflexivity|].
    destruct (String.eqb position threeKnightsFen);
      [vm_compute; reflexivity | reflexivity]. }
  rewrite forallb_forall in Hall. specialize (Hall _ H). simpl in Hall.
  apply andb_true_iff in Hall. destruct Hall as [Hn Hc]. split.
  - intros ->. discriminate.
  - destruct (captured result) as [piece|]; [right | now left].
    apply String.eqb_eq in Hc. now subst.
Qed.

Lemma bordered_has_moves (g : @Chess Bordered.chess) :
  isGameOver g = false -> moves (load (fen g)) <> [].
Proof.
  simpl. destruct (table g); [discriminate|]. intros _. discriminate.
Qed.

Lemma bordered_accepts_listed (g : @Chess Bordered.chess) (mv : string) :
  In mv (moves g) ->
  mv <> "" /\ exists g' result, move g mv = Normal (Some (g', result)).
Proof.
  simpl. intros H. destruct (lookup_listed mv (table g) H) as [[g' r] Hl].
  split.
  - destruct (lookup_entry _ _ _ Hl) as [k0 Hin].
    apply in_map_iff in H. destruct H as [[san [next res]] [Hs Hi]].
    simpl in Hs. subst san. now destruct (table_entries g mv next res Hi).
  - exists g', r. now rewrite Hl.
Qed.

Lemma excerpt_captures_known (g : @Chess Excerpt.chess) (mv : string)
  (g' : @Chess Excerpt.chess) (result : MoveResult) (piece : string) :
  move g mv = Normal (Some (g', result)) ->
  captured result = Some piece -> PIECE_VALUES piece <> None.
Proof.
  simpl. intros H Hc. injection H as H.
  destruct (lookup_entry _ _ _ H) as [k0 Hin].
  destruct (table_entries g k0 g' result Hin) as [_ [Hn|Hp]]; [congruence|].
  assert (piece = "p") by congruence. subst. discriminate.
Qed.

(** Two sequences of draws that differ from the third call on give the
    same move. *)
Lemma policy_reads_two_draws_witness :
  generateAIMove (draws (4 # 5) (1 # 2)) (position startFen) 0%nat =
  generateAIMove (fun k => nth k [4 # 5; 1 # 2] 0) (position startFen) 0%nat /\
  (0 <= snd (generateAIMove (draws (4 # 5) (1 # 2)) (position startFen) 0%nat)
   <= 0 + 2)%nat /\
  (moves (position startFen) = [] <->
   snd (generateAIMove (draws (4 # 5) (1 # 2)) (position startFen) 0%nat)
   = 0%nat).
Proof.
  apply (policy_reads_two_draws (lib := Excerpt.chess)
           (draws (4 # 5) (1 # 2)) (fun k => nth k [4 # 5; 1 # 2] 0)
           (position startFen) 0%nat); reflexivity.
Defined.

(** In the pawn ending the callback plays exd5 and White's list receives
    the pawn. *)
Lemma fired_timer_plays_listed_move_witness :
  let closure :=
    {| game := position pawnEndingFen; gameHistory := [];
       isGameActive := true; currentPlayer := White; gameSpeed := 2000;
       capturedPieces := {| white := ["n"]; black := [] |} |} in
  exists p,
    timerCallback (draws (1 # 2) (1 # 2)) closure 0%nat =
      (Normal (Some p), 1%nat) /\
    playedMove p = "exd5" /\
    In (playedMove p) (moves (load (fen (game closure)))) /\
    white (newCapturedPieces p) = ["n"; "p"].
Proof.
  intros closure.
  set (p := {| newGame := position "7k/8/8/3P4/8/8/8/7K b - - 0 1";
               playedMove := "exd5";
               newCapturedPieces := {| white := ["n"; "p"]; black := [] |} |}).
  assert (C : timerCallback (draws (1 # 2) (1 # 2)) closure 0%nat =
              (Normal (Some p), 1%nat)) by reflexivity.
  exists p. split; [exact C|]. split; [reflexivity|].
  destruct (fired_timer_plays_listed_move (lib := Excerpt.chess)
              (draws (1 # 2) (1 # 2)) closure 0%nat 1%nat p C)
    as [Hin _].
  split; [exact Hin | reflexivity].
Defined.

(** From the pawn ending, a start, the capture exd5 and a pause: one move
    and one piece more than before. *)
Lemma history_and_captures_only_grow_witness :
  let s :=
    {| gameState :=
         {| game := position pawnEndingFen; gameHistory := ["e4"; "d5"];
            isGameActive := false; currentPlayer := White; gameSpeed := 2000;
            capturedPieces := {| white := []; black := [] |} |};
       timer := None |} in
  extends s (fst (run (draws (1 # 2) (1 # 2))
                    [Start; Elapse 2000; Pause] s 0%nat)) /\
  gameHistory (gameState (fst (run (draws (1 # 2) (1 # 2))
                                 [Start; Elapse 2000; Pause] s 0%nat))) =
    ["e4"; "d5"; "exd5"].
Proof.
  intros s. split; [|reflexivity].
  apply (history_and_captures_only_grow (lib := Excerpt.chess)
           (draws (1 # 2) (1 # 2)) [Start; Elapse 2000; Pause] s 0%nat).
  - exact I.
  - simpl. intros [H|[H|[H|H]]]; try discriminate. exact H.
Defined.

Lemma shown_player_is_side_to_move_witness :
  showsSideToMove
    (fst (run (draws (4 # 5) (1 # 2)) [Start; Elapse 2000] mount 0%nat)) /\
  currentPlayer
    (gameState
       (fst (run (draws (4 # 5) (1 # 2)) [Start; Elapse 2000] mount 0%nat))) =
    Black.
Proof.
  split; [|reflexivity].
  apply (shown_player_is_side_to_move (lib := Excerpt.chess)
           (draws (4 # 5) (1 # 2)) [Start; Elapse 2000] 0%nat).
  reflexivity.
Defined.

(** The board changed: the event was the running out of the timer. *)
Lemma game_changes_only_by_timer_or_reset_witness :
  let s := fst (run (draws (4 # 5) (1 # 2)) [Start] mount 0%nat) in
  Elapse 2000 = Reset \/
  exists ms t,
    Elapse 2000 = Elapse ms /\ timer s = Some t /\ (remaining t <= ms)%Z.
Proof.
  intros s.
  apply (game_changes_only_by_timer_or_reset (lib := Excerpt.chess)
           (draws (4 # 5) (1 # 2)) (Elapse 2000) s 0%nat).
  left. vm_compute. discriminate.
Defined.

(** Half a second into the delay the slider is moved to 500. *)
Lemma speed_change_restarts_countdown_witness :
  let s := fst (run (draws (4 # 5) (1 # 2)) [Start; Elapse 500] mount 0%nat) in
  timer s = Some {| remaining := 1500; closure := gameState s |} /\
  timer (fst (step (draws (4 # 5) (1 # 2)) (SpeedChange 500) s 0%nat)) =
    Some {| remaining := 500;
            closure := handleSpeedChange 500 (gameState s) |} /\
  step (draws (4 # 5) (1 # 2)) (SpeedChange (gameSpeed (gameState s))) s 0%nat
    = (s, 0%nat).
Proof.
  intros s. split; [reflexivity|].
  apply (speed_change_restarts_countdown (lib := Excerpt.chess)
           (draws (4 # 5) (1 # 2)) s 500 0%nat).
  - reflexivity.
  - reflexivity.
  - vm_compute. discriminate.
Defined.

(** On the excerpt closed at its border, a started game has its timer. *)
Lemma active_game_never_stalls_witness :
  timer (fst (run (lib := Bordered.chess) (draws (4 # 5) (1 # 2))
                [Start; Elapse 500] mount 0%nat)) <> None.
Proof.
  apply (active_game_never_stalls (lib := Bordered.chess)
           (draws (4 # 5) (1 # 2)) [Start; Elapse 500] 0%nat).
  - intros [|n]; split; vm_compute; first [reflexivity | discriminate].
  - exact bordered_has_moves.
  - exact bordered_accepts_listed.
  - reflexivity.
  - reflexivity.
Defined.

Lemma move_labels_are_distinct_witness :
  (3 = 3)%nat /\
  moveNumber (2 * 3) = 4%nat /\ moveMark (2 * 3) = "" /\
  moveNumber (2 * 3 + 1) = 4%nat /\ moveMark (2 * 3 + 1) = "..".
Proof.
  apply (move_labels_are_distinct 3 3); reflexivity.
Defined.

(** White takes a queen while a rook up. *)
Lemma capture_shifts_material_advantage_witness :
  let gs :=
    {| game := position pawnEndingFen; gameHistory := [];
       isGameActive := true; currentPlayer := White; gameSpeed := 2000;
       capturedPieces := {| white := ["r"]; black := [] |} |} in
  let gs' :=
    {| game := position pawnEndingFen; gameHistory := [];
       isGameActive := true; currentPlayer := Black; gameSpeed := 2000;
       capturedPieces := {| white := ["r"; "q"]; black := [] |} |} in
  calculateMaterialAdvantage gs' = Some (5 + 9)%Z /\ (0 <= 9 <= 9)%Z.
Proof.
  intros gs gs'.
  apply (capture_shifts_material_advantage (lib := Excerpt.chess)
           gs gs' w "q" 9 5); reflexivity.
Defined.

Lemma material_advantage_is_bounded_witness :
  let gs :=
    gameState (fst (run (draws (4 # 5) (1 # 2)) [Start; Elapse 2000]
                      mount 0%nat)) in
  exists a,
    calculateMaterialAdvantage gs = Some a /\
    (Z.abs a <= 9 * Z.of_nat (length (gameHistory gs)))%Z.
Proof.
  apply (material_advantage_is_bounded (lib := Excerpt.chess)
           (draws (4 # 5) (1 # 2)) [Start; Elapse 2000] 0%nat).
  exact excerpt_captures_known.
Defined.

(** After 1.e4 the status line names Black. *)
Lemma status_line_names_the_right_player_witness :
  let gs :=
    gameState (fst (run (draws (4 # 5) (1 # 2)) [Start; Elapse 2000]
                      mount 0%nat)) in
  getGameStatus (fun g => String.eqb g foolsMateFen) (fun _ => false)
    (fun g => String.eqb g foolsMateFen) gs = "Black to move".
Proof.
  intros gs.
  destruct (status_line_names_the_right_player (lib := Excerpt.chess)
              (draws (4 # 5) (1 # 2))
              (fun g => String.eqb g foolsMateFen) (fun _ => false)
              (fun g => String.eqb g foolsMateFen)
              [Start; Elapse 2000] 0%nat eq_refl) as [_ [_ H]].
  exact (H eq_refl eq_refl).
Defined.

Lemma pending_timer_is_current_witness :
  let s := fst (run (draws (4 # 5) (1 # 2)) [Start; Elapse 2000; Elapse 700]
                  mount 0%nat) in
  timer s = Some {| remaining := 1300; closure := gameState s |} /\
  isGameActive (gameState s) = true /\
  isGameOver (game (gameState s)) = false.
Proof.
  intros s. split; [reflexivity|].
  destruct (pending_timer_is_current (lib := Excerpt.chess)
              (draws (4 # 5) (1 # 2)) [Start; Elapse 2000; Elapse 700] 0%nat
              {| remaining := 1300; closure := gameState s |} eq_refl)
    as [_ H].
  exact H.
Defined.

(** ** The capture tier on the position with two captures *)

Lemma lookup_key {A : Type} (key : string) (l : list (string * A)) (v : A) :
  lookup key l = Some v -> In (key, v) l.
Proof.
  induction l as [|[k0 v0] l IH]; simpl; [discriminate|].
  destruct (String.eqb_spec k0 key) as [->|_].
  - intros H. injection H as <-. now left.
  - intros H. right. now apply IH.
Qed.

(** In every entry of the tables the move is written with an x exactly
    when a captured piece is reported. *)
Lemma skirmish_entries (g : string) (san : string) (next : string)
  (result : MoveResult) :
  In (san, (next, result)) (Skirmish.table g) ->
  includes san "x" =
  match captured result with Some _ => true | None => false end.
Proof.
  intros H.
  assert (Hall : forallb
            (fun e : string * (string * MoveResult) =>
               Bool.eqb (includes (fst e) "x")
                 match captured (snd (snd e)) with
                 | Some _ => true
                 | None => false
                 end) (Skirmish.table g) = true).
  { unfold Skirmish.table, table.
    destruct (String.eqb g Skirmish.twoCapturesFen);
      [vm_compute; reflexivity|].
    destruct (String.eqb g startFen); [vm_compute; reflexivity|].
    destruct (String.eqb g pawnEndingFen); [vm_compute; reflexivity|].
    destruct (String.eqb g threeKnightsFen);
      [vm_compute; reflexivity | reflexivity]. }
  rewrite forallb_forall in Hall. specialize (Hall _ H). simpl in Hall.
  now apply Bool.eqb_prop.
Qed.

Lemma skirmish_marksCaptures : marksCaptures (lib := Skirmish.chess).
Proof.
  intros g mv Hin. simpl in Hin.
  destruct (lookup_listed mv (Skirmish.table g) Hin) as [[g' r] Hl].
  pose proof (skirmish_entries g mv g' r (lookup_key _ _ _ Hl)) as He.
  split.
  - intros Hx. rewrite Hx in He.
    destruct (captured r) as [piece|] eqn:Ec; [|discriminate].
    exists g', r, piece. simpl. now rewrite Hl.
  - intros [g'' [r' [piece [Hm Hc]]]]. simpl in Hm. rewrite Hl in Hm.
    injection Hm as <- <-. now rewrite He, Hc.
Qed.

(** White can advance to e5, a center square, or take on d5 or on f5.
    With a draw of 3/4 the policy takes on f5, the second of the two
    captures, although e5 and exd5 name center squares and the draw is
    above 7/10. *)
Lemma capture_tier_first_witness :
  generateAIMove (draws (3 # 4) (1 # 2))
    (Skirmish.position Skirmish.twoCapturesFen) 0%nat =
    (Normal (Some "exf5"), 1%nat) /\
  filter (fun m => includes m "x")
    (moves (Skirmish.position Skirmish.twoCapturesFen)) = ["exd5"; "exf5"] /\
  filter isCenterMove (moves (Skirmish.position Skirmish.twoCapturesFen)) =
    ["e5"; "exd5"] /\
  exists i mv,
    generateAIMove (draws (3 # 4) (1 # 2))
      (Skirmish.position Skirmish.twoCapturesFen) 0%nat =
      (Normal (Some mv), 1%nat) /\
    In mv (moves (Skirmish.position Skirmish.twoCapturesFen)) /\
    capturesPiece (Skirmish.position Skirmish.twoCapturesFen) mv /\
    nth_error
      (filter (fun m => includes m "x")
         (moves (Skirmish.position Skirmish.twoCapturesFen))) i = Some mv /\
    floorTimes (Double.ofQ (draws (3 # 4) (1 # 2) 0%nat))
      (length
         (filter (fun m => includes m "x")
            (moves (Skirmish.position Skirmish.twoCapturesFen)))) =
      Z.of_nat i /\
    (forall m,
       In m (filter (fun m => includes m "x")
               (moves (Skirmish.position Skirmish.twoCapturesFen))) <->
       In m (moves (Skirmish.position Skirmish.twoCapturesFen)) /\
       capturesPiece (Skirmish.position Skirmish.twoCapturesFen) m).
Proof.
  split; [vm_compute; reflexivity|].
  split; [vm_compute; reflexivity|].
  split; [vm_compute; reflexivity|].
  apply (capture_tier_first (lib := Skirmish.chess) (draws (3 # 4) (1 # 2))).
  - intros [|k]; split; vm_compute; first [reflexivity | discriminate].
  - exact skirmish_marksCaptures.
  - exists "exd5". split; [vm_compute; tauto|].
    exists "7k/8/8/3P1p2/8/8/8/7K b - - 0 1",
           {| color := w; captured := Some "p" |}, "p".
    split; reflexivity.
Defined.
